(** * Yatube: the request handlers of [posts/views.py]

    A shallow embedding of the six view functions of the blogging
    application ([index], [group_posts], [profile], [post_detail],
    [post_create], [post_edit]) together with the parts of the web
    framework they call: the paginator ([django/core/paginator.py]),
    [get_object_or_404], the bound/unbound discipline of forms and the
    [login_required] decorator.

    Conventions.
    - Python exceptions are values of [exn]; a computation that may raise
      returns [result A = exn + A].
    - A view runs against the persistent store: [view A] threads the
      [Store] and may raise.
    - Python [int] is [Z]; a [str] is the [string] of its UTF-8 bytes,
      and slicing it counts code points, not bytes ([take_code_points]);
      a model table is a [gmap] from primary key to row.
    - What the views use but the sources at hand do not contain (the
      page size of the settings, [Group.__str__], the field validation of
      the form class) and Python's [int] on strings are gathered in the
      class [Project]; the default ordering of posts is modelled from the
      spec ([newest_first]). *)

From Stdlib Require Import ZArith Ascii String List Lia.
From stdpp Require Import base option list gmap strings pretty sorting.

Local Open Scope Z_scope.

(** ** Exceptions and results *)

Inductive exn : Type :=
  | Http404
  | DoesNotExist
  | MultipleObjectsReturned
  | PageNotAnInteger
  | EmptyPage
  | ZeroDivisionError
  | TypeError
  | ValueError
  | IntegrityError.

Definition result (A : Type) : Type := (exn + A)%type.

Definition raise {A} (e : exn) : result A := inl e.

Definition result_bind {A B} (r : result A) (k : A → result B) : result B :=
  match r with
  | inl e => inl e
  | inr a => k a
  end.

Declare Scope result_scope.
Delimit Scope result_scope with result.
Notation "x <- e ;; k" := (result_bind e (fun x => k))
  (at level 100, e at next level, k at level 200, right associativity)
  : result_scope.

(** ** Python values that reach the paginator *)

(** [request.GET.get('page')] is [None] or a [str]; inside the paginator the
    page number is an [int]. *)
Inductive pyval : Type :=
  | PyNone
  | PyStr (s : string)
  | PyInt (n : Z).

(** [l[bottom:top]] with Python's treatment of negative and overlong
    indices. *)
Definition slice_index (i n : Z) : Z :=
  if i <? 0 then Z.max 0 (i + n) else Z.min i n.

Definition slice {A} (l : list A) (bottom top : Z) : list A :=
  let n := Z.of_nat (length l) in
  let b := slice_index bottom n in
  let t := slice_index top n in
  take (Z.to_nat (t - b)) (drop (Z.to_nat b) l).

(** A byte [10xxxxxx] continues the code point that an earlier byte of the
    UTF-8 encoding has started. *)
Definition continuation_byte (c : ascii) : bool :=
  match c with
  | Ascii _ _ _ _ _ _ b6 b7 => b7 && negb b6
  end.

(** [s[:n]] on a [str]: the first [n] code points, that is, the bytes up
    to the byte that starts code point [n + 1]. *)
Fixpoint take_code_points (n : nat) (s : string) : string :=
  match s with
  | EmptyString => EmptyString
  | String c s' =>
      if continuation_byte c then String c (take_code_points n s')
      else
        match n with
        | O => EmptyString
        | S n' => String c (take_code_points n' s')
        end
  end.

(** [len(s)] on a [str]: the number of code points. *)
Fixpoint code_points (s : string) : nat :=
  match s with
  | EmptyString => O
  | String c s' =>
      if continuation_byte c then code_points s' else S (code_points s')
  end.

(** [math.ceil(a / b)], computed on the integers ([ZeroDivisionError]
    when [b] is 0). *)
Definition ceil_div (a b : Z) : result Z :=
  if b =? 0 then raise ZeroDivisionError else inr (- ((- a) `div` b)).

(** ** The paginator of the framework *)

Module Paginator.

Record t (A : Type) : Type := Build {
  object_list : list A;
  per_page : Z;
  orphans : Z;
  allow_empty_first_page : bool
}.
Arguments Build {A} _ _ _ _.
Arguments object_list {A} _.
Arguments per_page {A} _.
Arguments orphans {A} _.
Arguments allow_empty_first_page {A} _.

(** [Paginator(object_list, per_page)]: [orphans=0],
    [allow_empty_first_page=True]. *)
Definition init {A} (object_list : list A) (per_page : Z) : t A :=
  Build object_list per_page 0 true.

Record Page (A : Type) : Type := BuildPage {
  page_object_list : list A;
  number : Z;
  paginator : t A
}.
Arguments BuildPage {A} _ _ _.
Arguments page_object_list {A} _.
Arguments number {A} _.
Arguments paginator {A} _.

Section paginator.
Context {A : Type}.
(** Python's [int] applied to a string. *)
Variable py_int : string → option Z.

(** [int(number)]: [TypeError] on [None], [ValueError] on a string that is
    not an integer literal. *)
Definition int_ (v : pyval) : result Z :=
  match v with
  | PyNone => raise TypeError
  | PyStr s =>
      match py_int s with
      | Some n => inr n
      | None => raise ValueError
      end
  | PyInt n => inr n
  end.

(** [count]: [len(self.object_list)] *)
Definition count (p : t A) : Z := Z.of_nat (length (object_list p)).

(** [num_pages]:
    [if self.count == 0 and not self.allow_empty_first_page: return 0];
    [hits = max(1, self.count - self.orphans)];
    [return ceil(hits / self.per_page)]. *)
Definition num_pages (p : t A) : result Z :=
  if (count p =? 0) && negb (allow_empty_first_page p) then inr 0
  else
    let hits := Z.max 1 (count p - orphans p) in
    ceil_div hits (per_page p).

(** [validate_number]: [int(number)], with [TypeError] and [ValueError]
    turned into [PageNotAnInteger]; [EmptyPage] when [number < 1], and
    when [number > self.num_pages] unless [number == 1] and the first
    page may be empty. *)
Definition validate_number (p : t A) (number : pyval) : result Z :=
  match int_ number with
  | inl TypeError | inl ValueError => raise PageNotAnInteger
  | inl e => raise e
  | inr n =>
      if n <? 1 then raise EmptyPage
      else
        (np <- num_pages p ;;
         if np <? n then
           if (n =? 1) && allow_empty_first_page p then inr n
           else raise EmptyPage
         else inr n)%result
  end.

(** [page]: [bottom = (number - 1) * self.per_page];
    [top = bottom + self.per_page];
    [if top + self.orphans >= self.count: top = self.count];
    the page holds [self.object_list[bottom:top]]. *)
Definition page (p : t A) (number : pyval) : result (Page A) :=
  (n <- validate_number p number ;;
   let bottom := (n - 1) * per_page p in
   let top := bottom + per_page p in
   let top := if count p <=? top + orphans p then count p else top in
   inr (BuildPage (slice (object_list p) bottom top) n p))%result.

(** [get_page]: [validate_number], with [PageNotAnInteger] answered by
    page 1 and [EmptyPage] by page [self.num_pages]; then [page]. *)
Definition get_page (p : t A) (number : pyval) : result (Page A) :=
  (n <- match validate_number p number with
        | inl PageNotAnInteger => inr 1
        | inl EmptyPage => num_pages p
        | r => r
        end ;;
   page p (PyInt n))%result.

(** [has_next], [has_previous] *)
Definition has_next (pg : Page A) : result bool :=
  (np <- num_pages (paginator pg) ;; inr (number pg <? np))%result.

Definition has_previous (pg : Page A) : bool := 1 <? number pg.

(** [len(page)] *)
Definition len (pg : Page A) : Z := Z.of_nat (length (page_object_list pg)).
End paginator.

End Paginator.

(** A decimal reader used to run the model on concrete requests: an
    optional sign followed by ASCII digits. *)
Fixpoint digits_value (acc : Z) (s : string) : option Z :=
  match s with
  | EmptyString => Some acc
  | String c s' =>
      let d := Z.of_nat (Ascii.nat_of_ascii c) - 48 in
      if (0 <=? d) && (d <=? 9) then digits_value (10 * acc + d) s' else None
  end.

Definition decimal (s : string) : option Z :=
  match s with
  | EmptyString => None
  | String "-"%char EmptyString | String "+"%char EmptyString => None
  | String "-"%char s' => Z.opp <$> digits_value 0 s'
  | String "+"%char s' => digits_value 0 s'
  | _ => digits_value 0 s
  end.

(** ** Requests *)

(** A [QueryDict]: the submitted pairs, in order. *)
Definition QueryDict : Type := list (string * string).

(** [d.get(key)]: the last value submitted under [key], else [None]. *)
Definition QueryDict_get (d : QueryDict) (key : string) : pyval :=
  match last (filter (λ kv, kv.1 = key) d) with
  | Some kv => PyStr kv.2
  | None => PyNone
  end.

(** [d or None] *)
Definition or_None (d : QueryDict) : option QueryDict :=
  match d with
  | [] => None
  | _ => Some d
  end.

(** ** Models *)

Record User : Type := { username : string }.

Record Group : Type := {
  title : string;
  slug : string;
  description : string
}.

Record Post : Type := {
  text : string;
  pub_date : Z;
  author : Z;
  group : option Z;
  image : option string
}.

(** The persistent store: one table per model, keyed by primary key. *)
Record Store : Type := {
  users : gmap Z User;
  groups : gmap Z Group;
  posts : gmap Z Post
}.

Global Instance User_eq_dec : EqDecision User.
Proof. solve_decision. Defined.
Global Instance Group_eq_dec : EqDecision Group.
Proof. solve_decision. Defined.
Global Instance Post_eq_dec : EqDecision Post.
Proof. solve_decision. Defined.

(** A Python-side model object that may not be saved yet: [pk] is [None]
    before the first [save()], and so are the required fields that the
    caller has not assigned. *)
Record PostInstance : Type := {
  pk : option Z;
  inst_text : string;
  inst_pub_date : option Z;
  inst_author : option Z;
  inst_group : option Z;
  inst_image : option string
}.

(** [Post()] *)
Definition Post_new : PostInstance :=
  {| pk := None; inst_text := ""; inst_pub_date := None;
     inst_author := None; inst_group := None; inst_image := None |}.

Definition instance_of_row (r : Z * Post) : PostInstance :=
  {| pk := Some r.1; inst_text := text r.2;
     inst_pub_date := Some (pub_date r.2); inst_author := Some (author r.2);
     inst_group := group r.2; inst_image := image r.2 |}.

(** [post.author = user] *)
Definition set_author (post : PostInstance) (user_pk : Z) : PostInstance :=
  {| pk := pk post; inst_text := inst_text post;
     inst_pub_date := inst_pub_date post; inst_author := Some user_pk;
     inst_group := inst_group post; inst_image := inst_image post |}.

(** [post.pub_date = moment] *)
Definition set_pub_date (post : PostInstance) (moment : Z) : PostInstance :=
  {| pk := pk post; inst_text := inst_text post;
     inst_pub_date := Some moment; inst_author := inst_author post;
     inst_group := inst_group post; inst_image := inst_image post |}.

Record HttpRequest : Type := {
  method : string;
  GET : QueryDict;
  POST : QueryDict;
  FILES : QueryDict;
  (** [None] is the anonymous user; otherwise the row of the session's
      user. *)
  user : option (Z * User)
}.

(** ** Forms *)

Definition ErrorDict : Type := list (string * string).

Record cleaned_data : Type := {
  cleaned_text : string;
  cleaned_group : option Z;
  cleaned_image : option string
}.

Record PostForm : Type := {
  data : option QueryDict;
  files : option QueryDict;
  instance : PostInstance;
  (** [_errors]: [None] until the form has been cleaned. *)
  errors : option ErrorDict
}.

(** [PostForm(data, files=files, instance=instance)] *)
Definition PostForm_init (data files : option QueryDict)
    (instance : option PostInstance) : PostForm :=
  {| data := data; files := files; instance := default Post_new instance;
     errors := None |}.

(** [self.is_bound = data is not None or files is not None] *)
Definition is_bound (form : PostForm) : bool :=
  bool_decide (is_Some (data form) ∨ is_Some (files form)).

(** [construct_instance]: the cleaned values of the form's fields are
    assigned to the instance; no other attribute is touched. *)
Definition construct_instance (cd : cleaned_data) (post : PostInstance)
    : PostInstance :=
  {| pk := pk post; inst_text := cleaned_text cd;
     inst_pub_date := inst_pub_date post; inst_author := inst_author post;
     inst_group := cleaned_group cd; inst_image := cleaned_image cd |}.

(** ** What the repository's sources leave open *)

Class Project : Type := {
  (** [settings.PAGE] *)
  PAGE : Z;
  (** Python's [int] applied to a string: [None] stands for [ValueError]. *)
  py_int : string → option Z;
  (** [Group.__str__] of [posts/models.py] *)
  Group_str : Group → string;
  (** The field validation of [PostForm] ([posts/forms.py]) on a bound
      form: the errors it finds, and the cleaned values of the fields
      text, group and image. *)
  PostForm_clean :
    Store → PostInstance → QueryDict → QueryDict → ErrorDict * cleaned_data
}.

(** ** Responses *)

Inductive ctxval : Type :=
  | VStr (s : string)
  | VInt (n : Z)
  | VBool (b : bool)
  | VUser (u : Z * User)
  | VGroup (g : option (Z * Group))
  | VPost (p : Z * Post)
  | VPosts (qs : list (Z * Post))
  | VPage (pg : Paginator.Page (Z * Post))
  | VForm (f : PostForm).

Definition Context : Type := list (string * ctxval).

Inductive urlarg : Type :=
  | UStr (s : string)
  | UInt (n : Z).

Inductive HttpResponse : Type :=
  (** [render(request, template, context)] *)
  | Rendered (template_name : string) (context : Context)
  (** [redirect(to, arg)] *)
  | HttpResponseRedirect (to : string) (arg : urlarg)
  (** [redirect_to_login], issued by [login_required] *)
  | RedirectToLogin.

Definition status_code (r : HttpResponse) : Z :=
  match r with
  | Rendered _ _ => 200
  | HttpResponseRedirect _ _ | RedirectToLogin => 302
  end.

(** The status the framework answers with: [Http404] becomes 404, any
    other uncaught exception 500. *)
Definition response_status (r : result HttpResponse) : Z :=
  match r with
  | inr resp => status_code resp
  | inl Http404 => 404
  | inl _ => 500
  end.

(** ** Views as computations over the store *)

Definition view (A : Type) : Type := Store → result A * Store.

Definition ret {A} (a : A) : view A := λ st, (inr a, st).
Definition throw {A} (e : exn) : view A := λ st, (inl e, st).
Definition lift {A} (r : result A) : view A := λ st, (r, st).
Definition query {A} (q : Store → A) : view A := λ st, (inr (q st), st).

Definition view_bind {A B} (m : view A) (k : A → view B) : view B :=
  λ st, match m st with
        | (inl e, st') => (inl e, st')
        | (inr a, st') => k a st'
        end.

Declare Scope view_scope.
Delimit Scope view_scope with view.
Notation "x <- e ;; k" := (view_bind e (fun x => k))
  (at level 100, e at next level, k at level 200, right associativity)
  : view_scope.

(** ** Queries *)

(** Modelled from the spec: the default ordering of [Post]
    ([Meta.ordering] of [posts/models.py], absent from the sources):
    "posts are ordered by descending creation time for listing purposes". *)
Definition newest_first (x y : Z * Post) : Prop := pub_date y.2 ≤ pub_date x.2.

Global Instance newest_first_dec x y : Decision (newest_first x y).
Proof. unfold newest_first. apply _. Defined.

(** [Post.objects.all()]: the rows of the table in the default ordering.
    Filters ([Post.objects.filter(...)], [author.posts.all()]) keep it. *)
Definition Post_objects (st : Store) : list (Z * Post) :=
  merge_sort newest_first (map_to_list (posts st)).

(** [Group.objects.all()], [User.objects.all()] *)
Definition Group_objects (st : Store) : list (Z * Group) :=
  map_to_list (groups st).
Definition User_objects (st : Store) : list (Z * User) :=
  map_to_list (users st).

(** [queryset.get()] over the rows that matched: exactly one, or
    [DoesNotExist], or [MultipleObjectsReturned]. *)
Definition queryset_get {A} (matched : list A) : result A :=
  match matched with
  | [] => raise DoesNotExist
  | [x] => inr x
  | _ => raise MultipleObjectsReturned
  end.

(** [get_object_or_404(klass, **kwargs)] *)
Definition get_object_or_404 {A} (objects : Store → list A)
    (kwargs : A → Prop) `{∀ x, Decision (kwargs x)} : view A :=
  λ st, match queryset_get (filter kwargs (objects st)) with
        | inl DoesNotExist => (raise Http404, st)
        | r => (r, st)
        end.

(** Following a foreign key: the referenced row must exist. *)
Definition related {A} (table : Store → gmap Z A) (key : Z) : view (Z * A) :=
  λ st, match table st !! key with
        | Some row => (inr (key, row), st)
        | None => (raise DoesNotExist, st)
        end.

(** The primary key given to a new row: one that no row of the table
    has, here the successor of the largest key in use (at least 1). *)
Definition next_pk {A} (table : gmap Z A) : Z :=
  foldr Z.max 0 (map_to_list table).*1 + 1.

(** [post.save()]: an instance without [pk] is inserted under a new key;
    one with [pk] overwrites its row. *)
Definition Post_save (post : PostInstance) : view (Z * Post) :=
  λ st,
    match inst_author post, inst_pub_date post with
    | Some a, Some d =>
        let row := {| text := inst_text post; pub_date := d; author := a;
                      group := inst_group post; image := inst_image post |} in
        let key := default (next_pk (posts st)) (pk post) in
        (inr (key, row),
         {| users := users st; groups := groups st;
            posts := <[key := row]> (posts st) |})
    | _, _ => (raise IntegrityError, st)
    end.

(** ** The form, continued *)

Section forms.
Context `{Project}.

(** [form.full_clean()]: an unbound form gets an empty error dictionary;
    a bound one is validated and its instance updated. *)
Definition full_clean (form : PostForm) : view PostForm :=
  λ st,
    if negb (is_bound form) then
      (inr {| data := data form; files := files form;
              instance := instance form; errors := Some [] |}, st)
    else
      let '(errs, cd) :=
        PostForm_clean st (instance form)
          (default [] (data form)) (default [] (files form)) in
      (inr {| data := data form; files := files form;
              instance := construct_instance cd (instance form);
              errors := Some errs |}, st).

(** [form.errors] *)
Definition form_errors (form : PostForm) : view (PostForm * ErrorDict) :=
  match errors form with
  | Some errs => ret (form, errs)
  | None =>
      (form' <- full_clean form ;;
       ret (form', default [] (errors form')))%view
  end.

(** [form.is_valid()]: [self.is_bound and not self.errors]. The form is
    returned with its errors attached. *)
Definition is_valid (form : PostForm) : view (PostForm * bool) :=
  if negb (is_bound form) then ret (form, false)
  else
    (fe <- form_errors form ;;
     ret (fe.1, bool_decide (fe.2 = [])))%view.

(** [form.save(commit=False)] *)
Definition form_save_commit_False (form : PostForm) : view PostInstance :=
  (fe <- form_errors form ;;
   match fe.2 with
   | [] => ret (instance fe.1)
   | _ => throw ValueError
   end)%view.
End forms.

(** ** The views of [posts/views.py] *)

(** [render(request, template, context)]: the response records the
    template and the context the view hands over, with status 200. The
    page that the template engine makes of them, which may also read the
    request, is outside the model. *)
Definition render (request : HttpRequest) (template : string)
    (context : Context) : view HttpResponse :=
  ret (Rendered template context).

Definition redirect (to : string) (arg : urlarg) : view HttpResponse :=
  ret (HttpResponseRedirect to arg).

(** [@login_required]: an anonymous request is sent to the login page, an
    authenticated one reaches the view together with [request.user]. *)
Definition login_required
    (view_func : HttpRequest → Z * User → view HttpResponse)
    (request : HttpRequest) : view HttpResponse :=
  match user request with
  | None => ret RedirectToLogin
  | Some u => view_func request u
  end.

(** [str(user)] is the username. *)
Definition User_str (u : User) : string := username u.

Section views.
Context `{Project}.

Definition index (request : HttpRequest) : view HttpResponse :=
  (let template := "posts/index.html" in
   post_list <- query Post_objects ;;
   let paginator := Paginator.init post_list PAGE in
   let page_number := QueryDict_get (GET request) "page" in
   page_obj <- lift (Paginator.get_page py_int paginator page_number) ;;
   let title_ := "Последние обновления на сайте" in
   let context := [("page_obj", VPage page_obj); ("title", VStr title_)] in
   render request template context)%view.

Definition group_posts (request : HttpRequest) (slug_ : string)
    : view HttpResponse :=
  (let template := "posts/group_list.html" in
   group_ <- get_object_or_404 Group_objects (λ g, slug g.2 = slug_) ;;
   posts_ <- query (λ st, filter (λ p, group p.2 = Some group_.1)
                            (Post_objects st)) ;;
   let paginator := Paginator.init posts_ PAGE in
   let page_number := QueryDict_get (GET request) "page" in
   page_obj <- lift (Paginator.get_page py_int paginator page_number) ;;
   let title_ := "Записи сообщества " +:+ Group_str group_.2 in
   let context := [("group", VGroup (Some group_));
                   ("posts", VPosts posts_);
                   ("page_obj", VPage page_obj);
                   ("title", VStr title_)] in
   render request template context)%view.

Definition profile (request : HttpRequest) (username_ : string)
    : view HttpResponse :=
  (let template := "posts/profile.html" in
   author_ <- get_object_or_404 User_objects
                (λ u, username u.2 = username_) ;;
   posts_ <- query (λ st, filter (λ p, author p.2 = author_.1)
                            (Post_objects st)) ;;
   count_posts <- query (λ st, Z.of_nat (length
                            (filter (λ p, author p.2 = author_.1)
                               (Post_objects st)))) ;;
   let paginator := Paginator.init posts_ PAGE in
   let page_number := QueryDict_get (GET request) "page" in
   page_obj <- lift (Paginator.get_page py_int paginator page_number) ;;
   let title_ := "Профайл пользователя " +:+ User_str author_.2 in
   let context := [("author", VUser author_);
                   ("posts", VPosts posts_);
                   ("count_posts", VInt count_posts);
                   ("page_obj", VPage page_obj);
                   ("title", VStr title_)] in
   render request template context)%view.

Definition post_detail (request : HttpRequest) (post_id : Z)
    : view HttpResponse :=
  (let template := "posts/post_detail.html" in
   post <- get_object_or_404 Post_objects (λ p, p.1 = post_id) ;;
   group_ <- match group post.2 with
             | None => ret None
             | Some g => (row <- related groups g ;; ret (Some row))
             end ;;
   author_ <- related users (author post.2) ;;
   count_posts <- query (λ st, Z.of_nat (length
                            (filter (λ p, author p.2 = author_.1)
                               (Post_objects st)))) ;;
   let title_ := "Пост " +:+ take_code_points 30 (text post.2) in
   let context := [("post", VPost post);
                   ("group", VGroup group_);
                   ("count_posts", VInt count_posts);
                   ("title", VStr title_)] in
   render request template context)%view.

(** [now] is the reading of the server clock, [datetime.now()]. *)
Definition post_create_view (now : Z) (request : HttpRequest)
    (user_ : Z * User) : view HttpResponse :=
  (let template := "posts/create_post.html" in
   let title_ := "Создание поста" in
   if bool_decide (method request ≠ "POST") then
     let form := PostForm_init None None None in
     let context := [("form", VForm form); ("title", VStr title_)] in
     render request template context
   else
     let form := PostForm_init (or_None (POST request))
                   (or_None (FILES request)) None in
     fv <- is_valid form ;;
     let form := fv.1 in
     if negb fv.2 then
       let context := [("form", VForm form); ("title", VStr title_)] in
       render request template context
     else
       post <- form_save_commit_False form ;;
       let post := set_author post user_.1 in
       let post := set_pub_date post now in
       post <- Post_save post ;;
       redirect "posts:profile" (UStr (User_str user_.2)))%view.

Definition post_create (now : Z) : HttpRequest → view HttpResponse :=
  login_required (post_create_view now).

Definition post_edit_view (now : Z) (post_id : Z) (request : HttpRequest)
    (user_ : Z * User) : view HttpResponse :=
  (let template := "posts/update_post.html" in
   post <- get_object_or_404 Post_objects
             (λ p, p.1 = post_id ∧ author p.2 = user_.1) ;;
   let title_ := "Редактрирование поста " +:+ pretty post.1 in
   let form := PostForm_init None None (Some (instance_of_row post)) in
   if bool_decide (method request ≠ "POST") then
     let context := [("form", VForm form); ("is_edit", VBool true);
                     ("post", VPost post); ("title", VStr title_)] in
     render request template context
   else
     let form := PostForm_init (or_None (POST request))
                   (or_None (FILES request))
                   (Some (instance_of_row post)) in
     fv <- is_valid form ;;
     let form := fv.1 in
     if negb fv.2 then
       let context := [("form", VForm form); ("is_edit", VBool true);
                       ("title", VStr title_)] in
       render request template context
     else
       post <- form_save_commit_False form ;;
       let post := set_author post user_.1 in
       let post := set_pub_date post now in
       post <- Post_save post ;;
       redirect "posts:post_detail" (UInt post.1))%view.

Definition post_edit (now : Z) (post_id : Z)
    : HttpRequest → view HttpResponse :=
  login_required (post_edit_view now post_id).
End views.

(** ** Constraints that the schema puts on the store

    The data model gives users a unique username and groups a unique
    slug, and lets a post refer only to an existing author and, when it
    has a group, to an existing group. *)

Definition unique_usernames (st : Store) : Prop :=
  NoDup ((λ u, username u.2) <$> User_objects st).

Definition unique_slugs (st : Store) : Prop :=
  NoDup ((λ g, slug g.2) <$> Group_objects st).

Definition refers_to_existing (st : Store) (p : Post) : Prop :=
  is_Some (users st !! author p) ∧
  match group p with
  | Some g => is_Some (groups st !! g)
  | None => True
  end.

Global Instance refers_to_existing_dec st p : Decision (refers_to_existing st p).
Proof. unfold refers_to_existing. destruct (group p); apply _. Defined.

Definition referential_integrity (st : Store) : Prop :=
  map_Forall (λ _ p, refers_to_existing st p) (posts st).

(** ** The paging contract in the words of the spec *)

Section contract.
Context `{Project} {A : Type}.

(** The rows of page [k] of the listing [l]: those at the positions
    [(k-1)*P ≤ i < k*P] that exist. *)
Definition page_window (l : list A) (P k : Z) (pg : Paginator.Page A) : Prop :=
  Paginator.number pg = k ∧
  ∀ j : nat,
    Paginator.page_object_list pg !! j =
      if Z.of_nat j <? P then l !! Z.to_nat ((k - 1) * P + Z.of_nat j)
      else None.

(** "Paginating yields [ceil(N/P)] pages, each of size [P] except
    possibly the last, which has [N mod P] items (or [P] if
    [N mod P == 0])." *)
Definition pages_as_specified (l : list A) (P : Z) : Prop :=
  let N := Z.of_nat (length l) in
  ∃ np : Z,
    Paginator.num_pages (Paginator.init l P) = inr np ∧
    (np - 1) * P < N ≤ np * P ∧
    ∀ k, 1 ≤ k ≤ np →
      ∃ pg, Paginator.page py_int (Paginator.init l P) (PyInt k) = inr pg ∧
            Paginator.len pg =
              if k <? np then P
              else if N `mod` P =? 0 then P else N `mod` P.

(** The page a request asks for, out of [np] pages: the integer read
    from the parameter when it lies in [1..np], page 1 when the
    parameter is missing or not an integer, the last page otherwise. *)
Definition requested_page (number : pyval) (np : Z) : Z :=
  match Paginator.int_ py_int number with
  | inl _ => 1
  | inr k => if (1 <=? k) && (k <=? np) then k else np
  end.

(** "Given an ordered sequence of N items, a page size P, and a
    requested page index K (1-based, defaults to 1 on missing/invalid
    input), returns items [(K-1)*P, K*P) clipped to [0, N). Out-of-range
    K clamps to the last valid page rather than erroring."

    The last valid page [np] is fixed by N and P alone: it is the one
    integer with [(np - 1) * P < max 1 N ≤ np * P], the number of pages
    that N items need (one page for an empty listing); the paginator
    reports that number, and the page shown is the window of the page
    requested out of [np]. *)
Definition selects_requested_page (number : pyval) (l : list A)
    (pg : Paginator.Page A) : Prop :=
  ∃ np : Z,
    Paginator.num_pages (Paginator.init l PAGE) = inr np ∧
    1 ≤ np ∧
    (np - 1) * PAGE < Z.max 1 (Z.of_nat (length l)) ≤ np * PAGE ∧
    page_window l PAGE (requested_page number np) pg.
End contract.

(** ** A project and a store to run the model on *)

Definition demo_clean (st : Store) (inst : PostInstance) (d f : QueryDict)
    : ErrorDict * cleaned_data :=
  let text_ := match QueryDict_get d "text" with PyStr s => s | _ => "" end in
  let group_ := match QueryDict_get d "group" with
                | PyStr s => decimal s
                | _ => None
                end in
  ((if bool_decide (text_ = "") then [("text", "This field is required.")]
    else []) ++
   match group_ with
   | Some g => if bool_decide (is_Some (groups st !! g)) then []
               else [("group", "Select a valid choice.")]
   | None => []
   end,
   {| cleaned_text := text_; cleaned_group := group_;
      cleaned_image := inst_image inst |}).

Definition demo : Project :=
  {| PAGE := 10; py_int := decimal; Group_str := title;
     PostForm_clean := demo_clean |}.

Definition demo_post (i : Z) : Post :=
  {| text := "post"; pub_date := 100 + i; author := 1; group := Some 1;
     image := None |}.

Definition Masha : Z * User := (1, {| username := "Masha" |}).

(** One author, two groups, thirteen posts in the first group. *)
Definition demo_store : Store :=
  {| users := {[ 1 := {| username := "Masha" |};
                 2 := {| username := "HasNoName" |} ]};
     groups := {[ 1 := {| title := "Test"; slug := "test-slug";
                          description := "d" |};
                  2 := {| title := "Other"; slug := "other";
                          description := "d" |} ]};
     posts := list_to_map
                ((λ i, (Z.of_nat i, demo_post (Z.of_nat i))) <$> seq 1 13) |}.

Definition demo_request (method_ : string) (page : QueryDict)
    (body : QueryDict) (user_ : option (Z * User)) : HttpRequest :=
  {| method := method_; GET := page; POST := body; FILES := [];
     user := user_ |}.

(** ** The ordering contract in the words of the spec *)

(** "Ordered by descending creation time (newest first)": no row of the
    listing is older than a row that comes after it. *)
Definition descending_creation_time (l : list (Z * Post)) : Prop :=
  ∀ (i j : nat) (x y : Z * Post),
    (i < j)%nat → l !! i = Some x → l !! j = Some y →
    pub_date y.2 ≤ pub_date x.2.

(** ** The create contract in the words of the spec *)

Section create_contract.
Context `{Project}.

(** [form.errors] as the template reads it when it renders the form. *)
Definition shown_errors (st : Store) (form : PostForm) : ErrorDict :=
  match (form_errors form st).1 with
  | inr fe => fe.2
  | inl _ => []
  end.

(** "If invalid, re-render the form with validation errors attached
    (HTTP 200, not an error status)", and persist no Post. *)
Definition rerendered_with_errors (now : Z) (request : HttpRequest)
    (st : Store) : Prop :=
  ∃ form,
    post_create now request st =
      (inr (Rendered "posts/create_post.html"
              [("form", VForm form); ("title", VStr "Создание поста")]),
       st) ∧
    shown_errors st form ≠ [].
End create_contract.

(** ** Frame *)

(** A computation that leaves the store as it found it, whatever it
    returns or raises. *)
Definition readonly {A} (m : view A) : Prop := ∀ st, (m st).2 = st.

(** The fixture of the view tests: one user, one group, one post. *)
Definition fixture_store : Store :=
  {| users := {[ 1 := {| username := "Masha" |} ]};
     groups := {[ 1 := {| title := "Test"; slug := "test-slug";
                          description := "d" |} ]};
     posts := {[ 1 := demo_post 1 ]} |}.

(** ** What the tests read off a response *)

(** [self.client.get(url)] with the query string [query], for a client
    logged in as [user_] ([None] for the guest client). *)
Definition client_get (user_ : option (Z * User)) (query : QueryDict)
    : HttpRequest :=
  {| method := "GET"; GET := query; POST := []; FILES := []; user := user_ |}.

(** [response.context[key]] *)
Definition context_get (response : result HttpResponse * Store)
    (key : string) : option ctxval :=
  match response.1 with
  | inr (Rendered _ context) =>
      (λ kv, kv.2) <$> head (filter (λ kv, kv.1 = key) context)
  | _ => None
  end.

(** [len(response.context['page_obj'])] *)
Definition page_obj_len (response : result HttpResponse * Store)
    : option Z :=
  match context_get response "page_obj" with
  | Some (VPage pg) => Some (Paginator.len pg)
  | _ => None
  end.

(** [response.context['page_obj'][0]] *)
Definition page_obj_first (response : result HttpResponse * Store)
    : option (Z * Post) :=
  match context_get response "page_obj" with
  | Some (VPage pg) => head (Paginator.page_object_list pg)
  | _ => None
  end.

(** ** A form that checks its group *)


(** * Properties *)

(** ** Page arithmetic *)

Lemma ceil_div_bounds (a b : Z) :
  0 < b → ∃ q, ceil_div a b = inr q ∧ (q - 1) * b < a ≤ q * b.
Proof.
  intros Hb. unfold ceil_div.
  destruct (Z.eqb_spec b 0) as [->|Hne]; [lia|].
  eexists; split; [reflexivity|].
  pose proof (Z.div_mod (- a) b Hne) as Hdm.
  pose proof (Z.mod_pos_bound (- a) b Hb) as Hr.
  lia.
Qed.

Lemma ceil_unique (n b q q' : Z) :
  0 < b → (q - 1) * b < n ≤ q * b → (q' - 1) * b < n ≤ q' * b → q = q'.
Proof. intros Hb Hq Hq'. nia. Qed.

Lemma last_page_size (n b q : Z) :
  0 < b → 0 < n → (q - 1) * b < n ≤ q * b →
  n - (q - 1) * b = if n `mod` b =? 0 then b else n `mod` b.
Proof.
  intros Hb Hn Hq.
  destruct (Z.eq_dec (n - (q - 1) * b) b) as [Heq|Hne].
  - assert (n `mod` b = 0) as ->.
    { symmetry. apply (Z.mod_unique_pos n b q 0); lia. }
    done.
  - assert (n `mod` b = n - (q - 1) * b) as Hm.
    { symmetry. apply (Z.mod_unique_pos n b (q - 1)); lia. }
    rewrite Hm. destruct (Z.eqb_spec (n - (q - 1) * b) 0); lia.
Qed.

(** ** Slices *)

Lemma slice_page {A} (l : list A) (b P : Z) :
  0 ≤ b ≤ Z.of_nat (length l) → 0 < P →
  slice l b (if Z.of_nat (length l) <=? b + P then Z.of_nat (length l)
             else b + P)
  = take (Z.to_nat P) (drop (Z.to_nat b) l).
Proof.
  intros Hb HP. unfold slice, slice_index.
  destruct (Z.ltb_spec b 0); [lia|].
  rewrite (Z.min_l b) by lia.
  destruct (Z.leb_spec (Z.of_nat (length l)) (b + P)) as [Hle|Hlt].
  - destruct (Z.ltb_spec (Z.of_nat (length l)) 0); [lia|].
    rewrite Z.min_id.
    rewrite !take_ge; [done| |]; rewrite length_drop; lia.
  - destruct (Z.ltb_spec (b + P) 0); [lia|].
    rewrite Z.min_l by lia. do 2 f_equal. lia.
Qed.

Lemma lookup_take_drop {A} (l : list A) (n b j : nat) :
  take n (drop b l) !! j = if decide (j < n)%nat then l !! (b + j)%nat else None.
Proof.
  case_decide.
  - by rewrite lookup_take_lt, lookup_drop.
  - apply lookup_take_ge. lia.
Qed.

Lemma elem_of_some_window {A} (l : list A) (x : A) (P : nat) :
  (0 < P)%nat → x ∈ l →
  ∃ k : nat, (k * P < length l)%nat ∧ x ∈ take P (drop (k * P) l).
Proof.
  intros HP [i Hi]%list_elem_of_lookup.
  exists (i `div` P)%nat.
  pose proof (Nat.div_mod i P ltac:(lia)) as Hdm.
  pose proof (Nat.mod_upper_bound i P ltac:(lia)) as Hr.
  pose proof (lookup_lt_Some _ _ _ Hi) as Hlt.
  split; [nia|].
  apply list_elem_of_lookup. exists (i `mod` P)%nat.
  rewrite lookup_take_drop. case_decide; [|lia].
  rewrite <- Hi. f_equal. lia.
Qed.

Lemma StronglySorted_sublist {A} (R : relation A) (l1 l2 : list A) :
  l1 `sublist_of` l2 → StronglySorted R l2 → StronglySorted R l1.
Proof.
  induction 1 as [|x l1 l2 Hsub IH|x l1 l2 Hsub IH]; intros Hs.
  - constructor.
  - apply StronglySorted_cons in Hs as [Hall Hs].
    apply StronglySorted_cons. split; [|by apply IH].
    rewrite Forall_forall in *. intros y Hy. apply Hall.
    by eapply elem_of_sublist.
  - apply StronglySorted_cons in Hs as [_ Hs]. by apply IH.
Qed.

(** ** Code points *)

Lemma code_points_take (n : nat) (s : string) :
  code_points (take_code_points n s) = (n `min` code_points s)%nat.
Proof.
  revert n. induction s as [|c s IH]; intros n; simpl.
  - lia.
  - destruct (continuation_byte c) eqn:Hc; simpl; rewrite ?Hc.
    + apply IH.
    + destruct n as [|n]; simpl; rewrite ?Hc, ?IH; lia.
Qed.

(** The cut never falls inside a code point: what is left out is empty or
    begins with a byte that starts a code point. *)
Lemma take_code_points_prefix (n : nat) (s : string) :
  ∃ rest : string,
    s = take_code_points n s +:+ rest ∧
    match rest with
    | EmptyString => True
    | String c _ => continuation_byte c = false
    end.
Proof.
  revert n. induction s as [|c s IH]; intros n; simpl.
  - by exists EmptyString.
  - destruct (continuation_byte c) eqn:Hc.
    + destruct (IH n) as (rest & Heq & Hrest).
      exists rest. split; [|done]. exact (f_equal (String c) Heq).
    + destruct n as [|n].
      * exists (String c s). by split.
      * destruct (IH n) as (rest & Heq & Hrest).
        exists rest. split; [|done]. exact (f_equal (String c) Heq).
Qed.

(** Twenty Cyrillic letters are forty bytes and twenty code points: a cut
    at thirty keeps them all; a cut at three keeps three letters. *)
Example take_code_points_cyrillic :
  take_code_points 30 "абвгдежзийклмнопрсту" = "абвгдежзийклмнопрсту" ∧
  String.length "абвгдежзийклмнопрсту" = 40%nat ∧
  code_points "абвгдежзийклмнопрсту" = 20%nat ∧
  take_code_points 3 "абвгдежзийклмнопрсту" = "абв" ∧
  take_code_points 3 "post" = "pos".
Proof. by vm_compute. Qed.

(** ** The paginator *)

Section paginator_facts.
Context `{Project} {A : Type}.
Implicit Types (l : list A) (P k np : Z) (v : pyval).
Local Arguments Paginator.num_pages : simpl never.
Local Arguments Paginator.page : simpl never.

Lemma num_pages_init l P :
  0 < P →
  ∃ np, Paginator.num_pages (Paginator.init l P) = inr np ∧
        1 ≤ np ∧
        (np - 1) * P < Z.max 1 (Z.of_nat (length l)) ≤ np * P.
Proof.
  intros HP.
  unfold Paginator.num_pages, Paginator.init, Paginator.count; simpl.
  rewrite andb_false_r, Z.sub_0_r.
  destruct (ceil_div_bounds (Z.max 1 (Z.of_nat (length l))) P HP)
    as (q & -> & Hq).
  exists q. split; [done|]. split; [nia|done].
Qed.

Lemma validate_number_in_range l P np k :
  Paginator.num_pages (Paginator.init l P) = inr np → 1 ≤ k ≤ np →
  Paginator.validate_number py_int (Paginator.init l P) (PyInt k) = inr k.
Proof.
  intros Hnp Hk. unfold Paginator.validate_number; simpl.
  destruct (Z.ltb_spec k 1); [lia|].
  rewrite Hnp; simpl.
  destruct (Z.ltb_spec np k); [lia|done].
Qed.

Lemma page_in_range l P np k :
  0 < P →
  Paginator.num_pages (Paginator.init l P) = inr np → 1 ≤ k ≤ np →
  Paginator.page py_int (Paginator.init l P) (PyInt k) =
    inr (Paginator.BuildPage
           (take (Z.to_nat P) (drop (Z.to_nat ((k - 1) * P)) l))
           k (Paginator.init l P)).
Proof.
  intros HP Hnp Hk.
  destruct (num_pages_init l P HP) as (np' & Hnp' & _ & Hb).
  rewrite Hnp in Hnp'. injection Hnp' as <-.
  unfold Paginator.page.
  rewrite (validate_number_in_range l P np k Hnp Hk); simpl.
  unfold Paginator.count; simpl. rewrite Z.add_0_r.
  do 2 f_equal. apply slice_page; [nia|done].
Qed.

Lemma requested_page_in_range v np :
  1 ≤ np → 1 ≤ requested_page v np ≤ np.
Proof.
  intros Hnp. unfold requested_page.
  destruct (Paginator.int_ py_int v) as [e|k]; [lia|].
  destruct (Z.leb_spec 1 k), (Z.leb_spec k np); simpl; lia.
Qed.

Lemma get_page_init l P v :
  0 < P →
  ∃ np, Paginator.num_pages (Paginator.init l P) = inr np ∧
        1 ≤ np ∧
        (np - 1) * P < Z.max 1 (Z.of_nat (length l)) ≤ np * P ∧
        Paginator.get_page py_int (Paginator.init l P) v =
          Paginator.page py_int (Paginator.init l P)
            (PyInt (requested_page v np)).
Proof.
  intros HP.
  destruct (num_pages_init l P HP) as (np & Hnp & Hnp1 & Hb).
  exists np. do 3 (split; [done|]).
  unfold Paginator.get_page, Paginator.validate_number, requested_page.
  destruct v as [|s|k]; simpl.
  - done.
  - destruct (py_int s) as [k|]; simpl; [|done].
    destruct (Z.ltb_spec k 1), (Z.leb_spec 1 k); try lia; simpl.
    + by rewrite Hnp.
    + rewrite Hnp; simpl.
      destruct (Z.ltb_spec np k), (Z.leb_spec k np); try lia; simpl.
      * by destruct (Z.eqb_spec k 1); [lia|].
      * done.
  - destruct (Z.ltb_spec k 1), (Z.leb_spec 1 k); try lia; simpl.
    + by rewrite Hnp.
    + rewrite Hnp; simpl.
      destruct (Z.ltb_spec np k), (Z.leb_spec k np); try lia; simpl.
      * by destruct (Z.eqb_spec k 1); [lia|].
      * done.
Qed.

(** [get_page] never fails for a positive page size, and returns the
    window of the requested page. *)
Lemma get_page_window l P v :
  0 < P →
  ∃ np,
    Paginator.num_pages (Paginator.init l P) = inr np ∧
    1 ≤ np ∧
    (np - 1) * P < Z.max 1 (Z.of_nat (length l)) ≤ np * P ∧
    Paginator.get_page py_int (Paginator.init l P) v =
      inr (Paginator.BuildPage
             (take (Z.to_nat P)
                (drop (Z.to_nat ((requested_page v np - 1) * P)) l))
             (requested_page v np) (Paginator.init l P)).
Proof.
  intros HP.
  destruct (get_page_init l P v HP) as (np & Hnp & Hnp1 & Hb & ->).
  exists np. do 3 (split; [done|]).
  apply (page_in_range l P np); [done..|].
  by apply requested_page_in_range.
Qed.

Lemma window_lookup l P k (j : nat) :
  0 < P → 1 ≤ k →
  take (Z.to_nat P) (drop (Z.to_nat ((k - 1) * P)) l) !! j =
    if Z.of_nat j <? P then l !! Z.to_nat ((k - 1) * P + Z.of_nat j)
    else None.
Proof.
  intros HP Hk. rewrite lookup_take_drop.
  case_decide; destruct (Z.ltb_spec (Z.of_nat j) P); try lia; [|done].
  f_equal. nia.
Qed.

Lemma window_sublist l (n b : nat) : take n (drop b l) `sublist_of` l.
Proof. etrans; [apply sublist_take|apply sublist_drop]. Qed.

Lemma get_page_sublist l P v pg :
  0 < P →
  Paginator.get_page py_int (Paginator.init l P) v = inr pg →
  Paginator.page_object_list pg `sublist_of` l.
Proof.
  intros HP Hpg.
  destruct (get_page_window l P v HP) as (np & _ & _ & _ & Heq).
  rewrite Heq in Hpg. injection Hpg as <-. apply window_sublist.
Qed.
End paginator_facts.

(** ** Queries over the store *)

Lemma newest_first_trans : Transitive newest_first.
Proof. intros x y z. unfold newest_first. lia. Qed.

Lemma newest_first_total : Total newest_first.
Proof. intros x y. unfold newest_first. lia. Qed.

Lemma Post_objects_sorted (st : Store) :
  StronglySorted newest_first (Post_objects st).
Proof.
  apply (@StronglySorted_merge_sort _ newest_first _
           newest_first_trans newest_first_total).
Qed.

Lemma Post_objects_perm (st : Store) :
  Post_objects st ≡ₚ map_to_list (posts st).
Proof. apply merge_sort_Permutation. Qed.

Lemma elem_of_Post_objects (st : Store) (k : Z) (p : Post) :
  (k, p) ∈ Post_objects st ↔ posts st !! k = Some p.
Proof. rewrite Post_objects_perm. apply elem_of_map_to_list. Qed.

Lemma NoDup_Post_objects_keys (st : Store) : NoDup (Post_objects st).*1.
Proof. rewrite Post_objects_perm. apply NoDup_fst_map_to_list. Qed.

Lemma filter_none {A} (P : A → Prop) `{∀ x, Decision (P x)} (l : list A) :
  filter P l = [] ↔ ∀ x, x ∈ l → ¬ P x.
Proof.
  split.
  - intros Hnil x Hx HP. by eapply filter_nil_not_elem_of.
  - intros Hall. induction l as [|x l IH]; [done|].
    rewrite filter_cons_False by (apply Hall; left).
    apply IH. intros y Hy. apply Hall. by right.
Qed.

(** Filtering on a condition that fixes the primary key finds at most the
    row stored under that key. *)
Lemma filter_key_found {B} (P : Z * B → Prop) `{∀ x, Decision (P x)}
    (l : list (Z * B)) (k : Z) (v : B) :
  NoDup l.*1 → (∀ r, P r → r.1 = k) → (k, v) ∈ l → P (k, v) →
  filter P l = [(k, v)].
Proof.
  intros Hnd Hkey Hin HP.
  induction l as [|x l IH]; [by apply elem_of_nil in Hin|].
  rewrite fmap_cons in Hnd. apply NoDup_cons in Hnd as [Hx Hnd].
  apply elem_of_cons in Hin as [<-|Hin].
  - rewrite filter_cons_True by done. f_equal.
    apply filter_none. intros r Hr HPr. apply Hx.
    rewrite <- (Hkey r HPr). simpl. by apply list_elem_of_fmap_2.
  - rewrite filter_cons_False; [by apply IH|].
    intros HPx. apply Hx. rewrite (Hkey x HPx).
    by apply (list_elem_of_fmap_2 fst l (k, v)).
Qed.

(** Filtering on the value of a field that is unique in the table finds
    exactly the row that carries the value. *)
Lemma filter_unique_field {A C} `{EqDecision C} (f : A → C)
    (l : list A) (x : A) :
  NoDup (f <$> l) → x ∈ l → filter (λ y, f y = f x) l = [x].
Proof.
  intros Hnd Hin.
  induction l as [|y l IH]; [by apply elem_of_nil in Hin|].
  rewrite fmap_cons in Hnd. apply NoDup_cons in Hnd as [Hy Hnd].
  apply elem_of_cons in Hin as [<-|Hin].
  - rewrite filter_cons_True by done. f_equal.
    apply filter_none. intros z Hz Heq. apply Hy. rewrite <- Heq.
    by apply list_elem_of_fmap_2.
  - rewrite filter_cons_False; [by apply IH|].
    intros Heq. apply Hy. rewrite Heq. by apply list_elem_of_fmap_2.
Qed.

Lemma get_object_or_404_found {A} (objects : Store → list A)
    (kwargs : A → Prop) `{∀ x, Decision (kwargs x)} (st : Store) (x : A) :
  filter kwargs (objects st) = [x] →
  get_object_or_404 objects kwargs st = (inr x, st).
Proof. intros Heq. unfold get_object_or_404. by rewrite Heq. Qed.

Lemma get_object_or_404_none {A} (objects : Store → list A)
    (kwargs : A → Prop) `{∀ x, Decision (kwargs x)} (st : Store) :
  get_object_or_404 objects kwargs st = (raise Http404, st) ↔
  ∀ x, x ∈ objects st → ¬ kwargs x.
Proof.
  rewrite <- (filter_none kwargs). unfold get_object_or_404, raise.
  destruct (filter kwargs (objects st)) as [|x [|y l]]; simpl;
    split; intros Heq; try done; by inversion Heq.
Qed.

Lemma next_pk_fresh {A} (table : gmap Z A) : table !! next_pk table = None.
Proof.
  apply eq_None_not_Some. intros [x Hx].
  apply elem_of_map_to_list in Hx.
  apply (list_elem_of_fmap_2 fst) in Hx. simpl in Hx.
  unfold next_pk in Hx.
  assert (∀ (ks : list Z) k, k ∈ ks → k ≤ foldr Z.max 0 ks) as Hmax.
  { induction ks as [|k' ks IH]; intros k Hk; [by apply elem_of_nil in Hk|].
    simpl. apply elem_of_cons in Hk as [->|Hk]; [lia|].
    specialize (IH k Hk). lia. }
  apply Hmax in Hx. lia.
Qed.

Lemma default_or_None (d : QueryDict) : default [] (or_None d) = d.
Proof. by destruct d. Qed.

(** ** Read-only computations *)

Lemma readonly_ret {A} (a : A) : readonly (ret a).
Proof. done. Qed.

Lemma readonly_throw {A} (e : exn) : readonly (@throw A e).
Proof. done. Qed.

Lemma readonly_lift {A} (r : result A) : readonly (lift r).
Proof. done. Qed.

Lemma readonly_query {A} (q : Store → A) : readonly (query q).
Proof. done. Qed.

Lemma readonly_bind {A B} (m : view A) (k : A → view B) :
  readonly m → (∀ a, readonly (k a)) → readonly (view_bind m k).
Proof.
  intros Hm Hk st. unfold view_bind.
  specialize (Hm st). destruct (m st) as [[e|a] st']; simpl in *; subst.
  - done.
  - apply Hk.
Qed.

Lemma readonly_get_object_or_404 {A} (objects : Store → list A)
    (kwargs : A → Prop) `{∀ x, Decision (kwargs x)} :
  readonly (get_object_or_404 objects kwargs).
Proof.
  intros st. unfold get_object_or_404.
  by destruct (queryset_get _) as [[]|].
Qed.

Lemma readonly_related {A} (table : Store → gmap Z A) (key : Z) :
  readonly (related table key).
Proof. intros st. unfold related. by destruct (table st !! key). Qed.

Lemma readonly_render request template context :
  readonly (render request template context).
Proof. done. Qed.

(** ** The listing handlers *)

Lemma get_page_never_404 `{Project} {A} (p : Paginator.t A) (v : pyval) :
  Paginator.get_page py_int p v ≠ inl Http404.
Proof.
  unfold Paginator.get_page, Paginator.page, Paginator.validate_number,
    Paginator.num_pages, Paginator.int_, ceil_div, result_bind, raise.
  repeat case_match; congruence.
Qed.

Section listing_facts.
Context `{Project}.
Implicit Types (request : HttpRequest) (st : Store).

Lemma index_response request st :
  0 < PAGE →
  ∃ pg,
    Paginator.get_page py_int (Paginator.init (Post_objects st) PAGE)
      (QueryDict_get (GET request) "page") = inr pg ∧
    index request st =
      (inr (Rendered "posts/index.html"
              [("page_obj", VPage pg);
               ("title", VStr "Последние обновления на сайте")]), st).
Proof.
  intros HP.
  destruct (get_page_window (Post_objects st) PAGE
              (QueryDict_get (GET request) "page") HP)
    as (np & _ & _ & _ & Hpg).
  eexists. split; [exact Hpg|].
  unfold index, view_bind, query, lift, render, ret. by rewrite Hpg.
Qed.

Lemma Group_lookup st g grp :
  unique_slugs st → groups st !! g = Some grp →
  get_object_or_404 Group_objects (λ r, slug r.2 = slug grp) st
  = (inr (g, grp), st).
Proof.
  intros Huniq Hg. apply get_object_or_404_found.
  apply (filter_unique_field (λ r : Z * Group, slug r.2) _ (g, grp));
    [done|].
  by apply elem_of_map_to_list.
Qed.

Lemma User_lookup st u usr :
  unique_usernames st → users st !! u = Some usr →
  get_object_or_404 User_objects (λ r, username r.2 = username usr) st
  = (inr (u, usr), st).
Proof.
  intros Huniq Hu. apply get_object_or_404_found.
  apply (filter_unique_field (λ r : Z * User, username r.2) _ (u, usr));
    [done|].
  by apply elem_of_map_to_list.
Qed.

Lemma Post_lookup st k p :
  posts st !! k = Some p →
  get_object_or_404 Post_objects (λ r, r.1 = k) st = (inr (k, p), st).
Proof.
  intros Hk. apply get_object_or_404_found.
  apply (filter_key_found _ _ k p); [|done| |done].
  - apply NoDup_Post_objects_keys.
  - by apply elem_of_Post_objects.
Qed.

Lemma group_posts_response request st g grp :
  0 < PAGE → unique_slugs st → groups st !! g = Some grp →
  ∃ pg,
    Paginator.get_page py_int
      (Paginator.init
         (filter (λ p, group p.2 = Some g) (Post_objects st)) PAGE)
      (QueryDict_get (GET request) "page") = inr pg ∧
    group_posts request (slug grp) st =
      (inr (Rendered "posts/group_list.html"
              [("group", VGroup (Some (g, grp)));
               ("posts",
                VPosts (filter (λ p, group p.2 = Some g) (Post_objects st)));
               ("page_obj", VPage pg);
               ("title", VStr ("Записи сообщества " +:+ Group_str grp))]),
       st).
Proof.
  intros HP Huniq Hg.
  destruct (get_page_window
              (filter (λ p, group p.2 = Some g) (Post_objects st)) PAGE
              (QueryDict_get (GET request) "page") HP)
    as (np & _ & _ & _ & Hpg).
  eexists. split; [exact Hpg|].
  unfold group_posts, view_bind.
  rewrite (Group_lookup st g grp Huniq Hg).
  unfold query, lift, render, ret; simpl. by rewrite Hpg.
Qed.

Lemma profile_response request st u usr :
  0 < PAGE → unique_usernames st → users st !! u = Some usr →
  ∃ pg,
    Paginator.get_page py_int
      (Paginator.init
         (filter (λ p, author p.2 = u) (Post_objects st)) PAGE)
      (QueryDict_get (GET request) "page") = inr pg ∧
    profile request (username usr) st =
      (inr (Rendered "posts/profile.html"
              [("author", VUser (u, usr));
               ("posts",
                VPosts (filter (λ p, author p.2 = u) (Post_objects st)));
               ("count_posts",
                VInt (Z.of_nat (length
                        (filter (λ p, author p.2 = u) (Post_objects st)))));
               ("page_obj", VPage pg);
               ("title", VStr ("Профайл пользователя " +:+ username usr))]),
       st).
Proof.
  intros HP Huniq Hu.
  destruct (get_page_window
              (filter (λ p, author p.2 = u) (Post_objects st)) PAGE
              (QueryDict_get (GET request) "page") HP)
    as (np & _ & _ & _ & Hpg).
  eexists. split; [exact Hpg|].
  unfold profile, view_bind.
  rewrite (User_lookup st u usr Huniq Hu).
  unfold query, lift, render, ret; simpl. by rewrite Hpg.
Qed.

Lemma post_detail_response request st k p :
  posts st !! k = Some p → refers_to_existing st p →
  post_detail request k st =
    (inr (Rendered "posts/post_detail.html"
            [("post", VPost (k, p));
             ("group",
              VGroup (g ← group p; grp ← groups st !! g; Some (g, grp)));
             ("count_posts",
              VInt (Z.of_nat (length
                      (filter (λ r, author r.2 = author p)
                         (Post_objects st)))));
             ("title", VStr ("Пост " +:+ take_code_points 30 (text p)))]),
     st).
Proof.
  intros Hk [[usr Hu] Hg].
  unfold post_detail, view_bind. rewrite (Post_lookup st k p Hk); simpl.
  unfold related, query, render, ret, view_bind.
  destruct (group p) as [g|]; simpl.
  - destruct Hg as [grp Hgrp]. by rewrite Hgrp, Hu.
  - by rewrite Hu.
Qed.

(** A view that starts with [get_object_or_404] and cannot raise
    [Http404] later on answers 404 exactly when nothing matches. *)
Lemma lookup_then_404 {A B} (objects : Store → list A)
    (kwargs : A → Prop) `{∀ x, Decision (kwargs x)} (k : A → view B) st :
  (∀ a st1 st2, k a st1 ≠ (inl Http404, st2)) →
  view_bind (get_object_or_404 objects kwargs) k st = (raise Http404, st) ↔
  ∀ x, x ∈ objects st → ¬ kwargs x.
Proof.
  intros Hk.
  rewrite <- (get_object_or_404_none objects kwargs st).
  unfold view_bind.
  pose proof (readonly_get_object_or_404 objects kwargs st) as Hst.
  destruct (get_object_or_404 objects kwargs st) as [[e|x] st'];
    simpl in Hst; subst st'; unfold raise.
  - split; intros [= ->]; done.
  - split; [|done]. intros Heq. by apply Hk in Heq.
Qed.

Lemma group_posts_404 request st s :
  group_posts request s st = (raise Http404, st) ↔
  ∀ g grp, groups st !! g = Some grp → slug grp ≠ s.
Proof.
  assert ((∀ g grp, groups st !! g = Some grp → slug grp ≠ s) ↔
          ∀ x, x ∈ Group_objects st → ¬ slug x.2 = s) as ->.
  { split.
    - intros Hall [g grp] Hin%elem_of_map_to_list. by apply (Hall g).
    - intros Hall g grp Hg%elem_of_map_to_list. by apply (Hall (g, grp)). }
  unfold group_posts. apply lookup_then_404.
  intros a st1 st2. unfold view_bind, query, lift, render, ret.
  match goal with
  | |- context [Paginator.get_page ?f ?p ?v] =>
      pose proof (get_page_never_404 p v) as Hne;
      destruct (Paginator.get_page f p v) as [e|pg]
  end; congruence.
Qed.

Lemma profile_404 request st name :
  profile request name st = (raise Http404, st) ↔
  ∀ u usr, users st !! u = Some usr → username usr ≠ name.
Proof.
  assert ((∀ u usr, users st !! u = Some usr → username usr ≠ name) ↔
          ∀ x, x ∈ User_objects st → ¬ username x.2 = name) as ->.
  { split.
    - intros Hall [u usr] Hin%elem_of_map_to_list. by apply (Hall u).
    - intros Hall u usr Hu%elem_of_map_to_list. by apply (Hall (u, usr)). }
  unfold profile. apply lookup_then_404.
  intros a st1 st2. unfold view_bind, query, lift, render, ret.
  match goal with
  | |- context [Paginator.get_page ?f ?p ?v] =>
      pose proof (get_page_never_404 p v) as Hne;
      destruct (Paginator.get_page f p v) as [e|pg]
  end; congruence.
Qed.

Lemma post_detail_404 request st k :
  post_detail request k st = (raise Http404, st) ↔ posts st !! k = None.
Proof.
  assert (posts st !! k = None ↔
          ∀ x, x ∈ Post_objects st → ¬ x.1 = k) as ->.
  { split.
    - intros Hk [k' p] Hin%elem_of_Post_objects Heq. simpl in Heq.
      congruence.
    - intros Hall. apply eq_None_not_Some. intros [p Hp].
      by apply (Hall (k, p)); [apply elem_of_Post_objects|]. }
  unfold post_detail. apply lookup_then_404.
  intros a st1 st2.
  unfold view_bind, related, query, render, ret, raise.
  repeat case_match; congruence.
Qed.
End listing_facts.

(** ** The form *)

Section form_facts.
Context `{Project}.
Implicit Types (form : PostForm) (st : Store).

Lemma is_bound_init (d f : QueryDict) (inst : option PostInstance) :
  is_bound (PostForm_init (or_None d) (or_None f) inst) = true ↔
  d ≠ [] ∨ f ≠ [].
Proof.
  unfold is_bound, PostForm_init; simpl.
  rewrite bool_decide_eq_true.
  destruct d, f; simpl; split; intros [Hd|Hf]; eauto;
    try (by destruct Hd); try (by destruct Hf).
Qed.

Lemma is_valid_unbound form st :
  is_bound form = false → is_valid form st = (inr (form, false), st).
Proof. intros Hb. unfold is_valid. by rewrite Hb. Qed.

Lemma is_valid_bound form st errs cd :
  is_bound form = true → errors form = None →
  PostForm_clean st (instance form) (default [] (data form))
    (default [] (files form)) = (errs, cd) →
  is_valid form st =
    (inr ({| data := data form; files := files form;
             instance := construct_instance cd (instance form);
             errors := Some errs |}, bool_decide (errs = [])), st).
Proof.
  intros Hb He Hc.
  unfold is_valid, form_errors, full_clean, view_bind, ret.
  by rewrite Hb, He; simpl; rewrite Hc.
Qed.

Lemma readonly_is_valid form : readonly (is_valid form).
Proof.
  intros st.
  unfold is_valid, form_errors, full_clean, view_bind, ret.
  repeat case_match; simplify_eq; done.
Qed.

(** What [is_valid] answers [True] to: a bound form whose field
    validation found no error; the form comes back with the cleaned
    values bound to its instance. *)
Lemma is_valid_true form form' st st' :
  errors form = None →
  is_valid form st = (inr (form', true), st') →
  is_bound form = true ∧
  ∃ cd,
    PostForm_clean st (instance form) (default [] (data form))
      (default [] (files form)) = ([], cd) ∧
    form' = {| data := data form; files := files form;
               instance := construct_instance cd (instance form);
               errors := Some [] |}.
Proof.
  intros He Hv.
  destruct (is_bound form) eqn:Hb.
  - split; [done|].
    destruct (PostForm_clean st (instance form) (default [] (data form))
                (default [] (files form))) as [errs cd] eqn:Hc.
    rewrite (is_valid_bound form st errs cd Hb He Hc) in Hv.
    injection Hv as <- Hd <-.
    apply bool_decide_eq_true in Hd. subst errs. by exists cd.
  - rewrite (is_valid_unbound form st Hb) in Hv. by injection Hv.
Qed.

(** What [is_valid] answers [False] to: an unbound form, returned as it
    is, or a bound form that comes back with a non-empty error
    dictionary. *)
Lemma is_valid_false form form' st st' :
  errors form = None →
  is_valid form st = (inr (form', false), st') →
  (is_bound form = false ∧ form' = form) ∨
  (is_bound form = true ∧ ∃ errs, errors form' = Some errs ∧ errs ≠ []).
Proof.
  intros He Hv.
  destruct (is_bound form) eqn:Hb.
  - right. split; [done|].
    destruct (PostForm_clean st (instance form) (default [] (data form))
                (default [] (files form))) as [errs cd] eqn:Hc.
    rewrite (is_valid_bound form st errs cd Hb He Hc) in Hv.
    injection Hv as <- Hd <-.
    apply bool_decide_eq_false in Hd. by exists errs.
  - left. rewrite (is_valid_unbound form st Hb) in Hv.
    by injection Hv as <- <-.
Qed.

Lemma form_save_cleaned form st :
  errors form = Some [] →
  form_save_commit_False form st = (inr (instance form), st).
Proof.
  intros He. unfold form_save_commit_False, form_errors, view_bind, ret.
  by rewrite He.
Qed.
End form_facts.

(** * The claims *)

Ltac solve_readonly :=
  repeat first
    [ apply readonly_render
    | apply readonly_ret
    | apply readonly_query
    | apply readonly_lift
    | apply readonly_related
    | apply readonly_get_object_or_404
    | apply readonly_bind; [|intros]
    | case_match ].

Section claims.
Context `{Project}.
Implicit Types (request : HttpRequest) (st : Store) (now : Z).

(** Every row of a listing is on one of its pages. *)
Lemma elem_of_some_page {A} (l : list A) (x : A) :
  0 < PAGE → x ∈ l →
  ∃ n pg,
    Paginator.page py_int (Paginator.init l PAGE) (PyInt n) = inr pg ∧
    x ∈ Paginator.page_object_list pg.
Proof.
  intros HP Hx.
  destruct (elem_of_some_window l x (Z.to_nat PAGE) ltac:(lia) Hx)
    as (k & Hk & Hin).
  destruct (num_pages_init l PAGE HP) as (np & Hnp & Hnp1 & Hb).
  exists (Z.of_nat k + 1). eexists. split.
  - apply (page_in_range l PAGE np); [done..|]. nia.
  - simpl. replace (Z.to_nat ((Z.of_nat k + 1 - 1) * PAGE))
      with (k * Z.to_nat PAGE)%nat by nia.
    done.
Qed.

Lemma StronglySorted_descending (l : list (Z * Post)) :
  StronglySorted newest_first l → descending_creation_time l.
Proof.
  induction 1 as [|x l Hs IH Hall]; intros i j a b Hij Ha Hb.
  - by rewrite lookup_nil in Ha.
  - destruct j as [|j]; [lia|]. simpl in Hb.
    destruct i as [|i]; simpl in Ha.
    + injection Ha as <-. rewrite Forall_forall in Hall.
      apply (Hall b). by eapply list_elem_of_lookup_2.
    + apply (IH i j); [lia|done..].
Qed.

Lemma page_descending (l : list (Z * Post)) (v : pyval)
    (pg : Paginator.Page (Z * Post)) :
  0 < PAGE → StronglySorted newest_first l →
  Paginator.get_page py_int (Paginator.init l PAGE) v = inr pg →
  descending_creation_time (Paginator.page_object_list pg).
Proof.
  intros HP Hs Hpg. apply StronglySorted_descending.
  eapply StronglySorted_sublist; [|exact Hs].
  by eapply get_page_sublist.
Qed.

Lemma filter_Post_objects_sorted (P : Z * Post → Prop)
    `{∀ x, Decision (P x)} st :
  StronglySorted newest_first (filter P (Post_objects st)).
Proof.
  eapply StronglySorted_sublist; [apply sublist_filter|].
  apply Post_objects_sorted.
Qed.

Lemma get_page_selects {A} (l : list A) (v : pyval) (pg : Paginator.Page A) :
  0 < PAGE →
  Paginator.get_page py_int (Paginator.init l PAGE) v = inr pg →
  selects_requested_page v l pg.
Proof.
  intros HP Hpg.
  destruct (get_page_window l PAGE v HP) as (np & Hnp & Hnp1 & Hb & Heq).
  rewrite Heq in Hpg. injection Hpg as <-.
  exists np. split; [done|]. split; [done|]. split; [done|]. split; [done|].
  intros j. simpl. apply window_lookup; [done|].
  by apply requested_page_in_range.
Qed.

Lemma page_len {A} (l : list A) (P np k : Z) :
  0 < P →
  Paginator.num_pages (Paginator.init l P) = inr np → 1 ≤ k ≤ np →
  ∃ pg,
    Paginator.page py_int (Paginator.init l P) (PyInt k) = inr pg ∧
    Paginator.len pg = Z.min P (Z.of_nat (length l) - (k - 1) * P).
Proof.
  intros HP Hnp Hk.
  destruct (num_pages_init l P HP) as (np' & Hnp' & _ & Hb).
  rewrite Hnp in Hnp'. injection Hnp' as <-.
  eexists. split; [by apply (page_in_range l P np)|].
  unfold Paginator.len; simpl. rewrite length_take, length_drop. nia.
Qed.

Lemma method_is_POST request :
  method request = "POST" → bool_decide (method request ≠ "POST") = false.
Proof. intros ->. apply bool_decide_eq_false. by intros Hne. Qed.

Lemma shown_errors_cached st form errs :
  errors form = Some errs → shown_errors st form = errs.
Proof.
  intros He. unfold shown_errors, form_errors, ret. by rewrite He.
Qed.

Lemma shown_errors_unbound st form :
  errors form = None → is_bound form = false → shown_errors st form = [].
Proof.
  intros He Hb.
  unfold shown_errors, form_errors, full_clean, view_bind, ret.
  by rewrite He, Hb.
Qed.

Lemma Post_owner_lookup st (k uid : Z) (p : Post) :
  posts st !! k = Some p → author p = uid →
  get_object_or_404 Post_objects (λ r, r.1 = k ∧ author r.2 = uid) st
  = (inr (k, p), st).
Proof.
  intros Hk Ha. apply get_object_or_404_found.
  apply (filter_key_found _ _ k p).
  - apply NoDup_Post_objects_keys.
  - by intros r [Hr _].
  - by apply elem_of_Post_objects.
  - done.
Qed.

(** What a valid submission to the create handler does to the store. *)
Lemma post_create_valid now request (u : Z * User) st form :
  user request = Some u → method request = "POST" →
  is_valid (PostForm_init (or_None (POST request))
              (or_None (FILES request)) None) st
    = (inr (form, true), st) →
  post_create now request st =
    (inr (HttpResponseRedirect "posts:profile" (UStr (username u.2))),
     {| users := users st; groups := groups st;
        posts := <[next_pk (posts st) :=
                     {| text := inst_text (instance form); pub_date := now;
                        author := u.1; group := inst_group (instance form);
                        image := inst_image (instance form) |}]>
                   (posts st) |}).
Proof.
  intros Hu Hm Hv.
  pose proof Hv as Hv'.
  apply is_valid_true in Hv' as [Hb (cd & Hc & Hform)]; [|done].
  unfold post_create, login_required. rewrite Hu.
  unfold post_create_view. rewrite (method_is_POST request Hm).
  unfold view_bind. rewrite Hv; simpl.
  rewrite form_save_cleaned by (by rewrite Hform).
  unfold Post_save, redirect, ret; simpl.
  by rewrite Hform.
Qed.

(** C1. The edit handler looks the post up by id and author = the
    session's user. When no post has that id, and equally when the post
    exists but belongs to somebody else, the request (whatever its
    method and body) ends in the same [Http404], answered with status
    404, and leaves the store untouched. *)
Theorem post_edit_not_found now (post_id : Z) request (u : Z * User) st :
  user request = Some u →
  (posts st !! post_id = None ∨
   ∃ p, posts st !! post_id = Some p ∧ author p ≠ u.1) →
  post_edit now post_id request st = (raise Http404, st) ∧
  response_status (post_edit now post_id request st).1 = 404.
Proof.
  intros Hu Hcase.
  assert (post_edit now post_id request st = (raise Http404, st)) as Heq.
  { unfold post_edit, login_required. rewrite Hu.
    unfold post_edit_view, view_bind.
    assert (get_object_or_404 Post_objects
              (λ r : Z * Post, r.1 = post_id ∧ author r.2 = u.1) st
            = (raise Http404, st)) as ->; [|done].
    apply get_object_or_404_none.
    intros [k p] Hin%elem_of_Post_objects [Hk Ha]. simpl in *. subst k.
    destruct Hcase as [Hnone|(p' & Hp' & Hne)]; [congruence|].
    rewrite Hin in Hp'. by injection Hp' as <-. }
  by rewrite Heq.
Qed.

(** C2. A valid submission to the create handler by an authenticated
    user persists one new post: it is stored under a key that was free,
    its author is the session's user and its timestamp the reading of
    the server clock, its text and group are the ones the form bound
    from the submission, and the answer is a redirect to that author's
    profile. Afterwards (the session's user being a stored user, the
    usernames unique and the page size positive) the profile of the
    author lists the new post, and the post is on one of the pages of
    that listing. *)
Theorem post_create_persists now request (u : Z * User) st form :
  user request = Some u → method request = "POST" →
  is_valid (PostForm_init (or_None (POST request))
              (or_None (FILES request)) None) st
    = (inr (form, true), st) →
  let key := next_pk (posts st) in
  let row := {| text := inst_text (instance form); pub_date := now;
                author := u.1; group := inst_group (instance form);
                image := inst_image (instance form) |} in
  let st' := {| users := users st; groups := groups st;
                posts := <[key := row]> (posts st) |} in
  posts st !! key = None ∧
  post_create now request st =
    (inr (HttpResponseRedirect "posts:profile" (UStr (username u.2))),
     st') ∧
  (∃ cd, PostForm_clean st Post_new (POST request) (FILES request)
           = ([], cd) ∧
         text row = cleaned_text cd ∧ group row = cleaned_group cd) ∧
  (0 < PAGE → unique_usernames st → users st !! u.1 = Some u.2 →
   ∀ request',
     ∃ posts_ pg,
       profile request' (username u.2) st' =
         (inr (Rendered "posts/profile.html"
                 [("author", VUser u);
                  ("posts", VPosts posts_);
                  ("count_posts", VInt (Z.of_nat (length posts_)));
                  ("page_obj", VPage pg);
                  ("title",
                   VStr ("Профайл пользователя " +:+ username u.2))]),
          st') ∧
       (key, row) ∈ posts_ ∧
       ∃ n pg',
         Paginator.page py_int (Paginator.init posts_ PAGE) (PyInt n)
           = inr pg' ∧
         (key, row) ∈ Paginator.page_object_list pg').
Proof.
  intros Hu Hm Hv key row st'.
  destruct u as [uid usr]; simpl in *.
  pose proof Hv as Hv'.
  apply is_valid_true in Hv' as [Hb (cd & Hc & Hform)]; [|done].
  simpl in Hc. rewrite !default_or_None in Hc.
  split; [apply next_pk_fresh|]. split; [|split].
  - by apply (post_create_valid now request (uid, usr)).
  - exists cd. subst row. by rewrite Hform.
  - intros HP Hnames Huser request'.
    destruct (profile_response request' st' uid usr HP Hnames Huser)
      as (pg & Hpg & Hresp).
    eexists _, pg. split; [exact Hresp|].
    assert ((key, row) ∈ filter (λ p, author p.2 = uid) (Post_objects st'))
      as Hin.
    { apply list_elem_of_filter. split; [done|].
      apply elem_of_Post_objects. apply lookup_insert_eq. }
    split; [done|]. by apply elem_of_some_page.
Qed.

(** C3, as amended. Every invalid submission to the create handler is
    answered by re-rendering the form at status 200, and persists no
    post: the store is what it was. The re-rendered form carries
    validation errors whenever the submission carried form data or
    files; a submission that carries neither is re-rendered as an
    unbound form, which shows no errors. *)
Theorem post_create_invalid now request (u : Z * User) st form :
  user request = Some u → method request = "POST" →
  is_valid (PostForm_init (or_None (POST request))
              (or_None (FILES request)) None) st
    = (inr (form, false), st) →
  post_create now request st =
    (inr (Rendered "posts/create_post.html"
            [("form", VForm form); ("title", VStr "Создание поста")]),
     st) ∧
  response_status (post_create now request st).1 = 200 ∧
  (POST request ≠ [] ∨ FILES request ≠ [] →
   rerendered_with_errors now request st) ∧
  (POST request = [] → FILES request = [] → shown_errors st form = []).
Proof.
  intros Hu Hm Hv.
  assert (post_create now request st =
            (inr (Rendered "posts/create_post.html"
                    [("form", VForm form);
                     ("title", VStr "Создание поста")]), st)) as Hresp.
  { unfold post_create, login_required. rewrite Hu.
    unfold post_create_view. rewrite (method_is_POST request Hm).
    unfold view_bind. by rewrite Hv. }
  split; [done|]. split; [by rewrite Hresp|].
  apply is_valid_false in Hv as [[Hb ->]|[Hb (errs & He & Hne)]]; [| |done].
  - split.
    + intros Hbound%(is_bound_init _ _ None). congruence.
    + intros _ _. by apply shown_errors_unbound.
  - split.
    + intros _. exists form. split; [done|].
      by rewrite (shown_errors_cached st form errs He).
    + intros HP HF. rewrite HP, HF in Hb. done.
Qed.

(** C4, as amended. For a page size P > 0 and a listing of N > 0 items
    there are ceil(N/P) pages, each of P items except possibly the last,
    which holds N mod P items (P when N mod P = 0); an empty listing has
    one page, which is empty. With 13 items and page size 10 there are
    two pages, of 10 and of 3 items. *)
Theorem pagination_page_sizes {A} (l : list A) (P : Z) :
  0 < P →
  (l ≠ [] → pages_as_specified l P) ∧
  (l = [] →
   Paginator.num_pages (Paginator.init l P) = inr 1 ∧
   Paginator.page py_int (Paginator.init l P) (PyInt 1)
     = inr (Paginator.BuildPage [] 1 (Paginator.init l P))) ∧
  (length l = 13%nat → P = 10 →
   Paginator.num_pages (Paginator.init l P) = inr 2 ∧
   ∃ pg1 pg2,
     Paginator.page py_int (Paginator.init l P) (PyInt 1) = inr pg1 ∧
     Paginator.len pg1 = 10 ∧
     Paginator.page py_int (Paginator.init l P) (PyInt 2) = inr pg2 ∧
     Paginator.len pg2 = 3).
Proof.
  intros HP.
  destruct (num_pages_init l P HP) as (np & Hnp & Hnp1 & Hb).
  split; [|split].
  - intros Hne.
    assert (0 < Z.of_nat (length l)) as HN by (destruct l; simpl; [done|lia]).
    rewrite Z.max_r in Hb by lia.
    exists np. split; [done|]. split; [done|].
    intros k Hk.
    destruct (page_len l P np k HP Hnp Hk) as (pg & Hpg & Hlen).
    exists pg. split; [done|]. rewrite Hlen.
    destruct (Z.ltb_spec k np).
    + nia.
    + assert (k = np) as -> by lia.
      rewrite <- (last_page_size _ P np HP HN Hb). lia.
  - intros ->. simpl in Hb.
    assert (np = 1) as -> by nia.
    split; [done|].
    by rewrite (page_in_range [] P 1 1 HP Hnp ltac:(lia)), drop_nil, take_nil.
  - intros Hlen ->. rewrite Hlen in Hb.
    assert (np = 2) as -> by lia.
    split; [done|].
    destruct (page_len l 10 2 1 HP Hnp ltac:(lia)) as (pg1 & Hpg1 & Hl1).
    destruct (page_len l 10 2 2 HP Hnp ltac:(lia)) as (pg2 & Hpg2 & Hl2).
    exists pg1, pg2. rewrite Hlen in Hl1, Hl2. repeat split; [done|lia|done|lia].
Qed.

(** C5. In every listing request the [page] query parameter selects the
    page: page K holds the rows at positions (K-1)*P ≤ i < K*P of the
    listing that exist; a missing parameter or one that is not an
    integer gives page 1; an integer outside 1..(number of pages) gives
    the last page, not an error. This holds for the index, the group
    listing and the profile. *)
Theorem page_parameter_selects request st :
  0 < PAGE →
  let number := QueryDict_get (GET request) "page" in
  (∃ pg,
     index request st =
       (inr (Rendered "posts/index.html"
               [("page_obj", VPage pg);
                ("title", VStr "Последние обновления на сайте")]), st) ∧
     selects_requested_page number (Post_objects st) pg) ∧
  (∀ g grp, unique_slugs st → groups st !! g = Some grp →
     ∃ posts_ pg title_,
       group_posts request (slug grp) st =
         (inr (Rendered "posts/group_list.html"
                 [("group", VGroup (Some (g, grp)));
                  ("posts", VPosts posts_);
                  ("page_obj", VPage pg);
                  ("title", VStr title_)]), st) ∧
       selects_requested_page number posts_ pg) ∧
  (∀ u usr, unique_usernames st → users st !! u = Some usr →
     ∃ posts_ count_posts pg title_,
       profile request (username usr) st =
         (inr (Rendered "posts/profile.html"
                 [("author", VUser (u, usr));
                  ("posts", VPosts posts_);
                  ("count_posts", VInt count_posts);
                  ("page_obj", VPage pg);
                  ("title", VStr title_)]), st) ∧
       selects_requested_page number posts_ pg) ∧
  (∀ np : Z,
     requested_page PyNone np = 1 ∧
     (∀ s, py_int s = None → requested_page (PyStr s) np = 1) ∧
     (∀ s k, py_int s = Some k → 1 ≤ k ≤ np →
             requested_page (PyStr s) np = k) ∧
     (∀ s k, py_int s = Some k → ¬ (1 ≤ k ≤ np) →
             requested_page (PyStr s) np = np)).
Proof.
  intros HP number. split; [|split; [|split]].
  - destruct (index_response request st HP) as (pg & Hpg & Hresp).
    exists pg. split; [done|]. by apply get_page_selects.
  - intros g grp Hslugs Hg.
    destruct (group_posts_response request st g grp HP Hslugs Hg)
      as (pg & Hpg & Hresp).
    eexists _, pg, _. split; [exact Hresp|]. by apply get_page_selects.
  - intros u usr Hnames Hu.
    destruct (profile_response request st u usr HP Hnames Hu)
      as (pg & Hpg & Hresp).
    eexists _, _, pg, _. split; [exact Hresp|]. by apply get_page_selects.
  - intros np. unfold requested_page; simpl. split; [done|].
    split; [|split].
    + by intros s ->.
    + intros s k -> Hk.
      by destruct (Z.leb_spec 1 k), (Z.leb_spec k np); try lia.
    + intros s k -> Hk.
      by destruct (Z.leb_spec 1 k), (Z.leb_spec k np); try lia.
Qed.

(** C6. The group listing, the profile and the post detail handlers
    raise [Http404] if and only if the entity they are asked for (the
    group with that slug, the user with that username, the post with
    that id) does not exist. When it exists, and the store satisfies the
    constraints of the schema and the page size is positive, they answer
    with the rendering of that entity's data. *)
Theorem not_found_iff_missing request st :
  (∀ s : string,
     group_posts request s st = (raise Http404, st) ↔
     ¬ ∃ g grp, groups st !! g = Some grp ∧ slug grp = s) ∧
  (∀ name : string,
     profile request name st = (raise Http404, st) ↔
     ¬ ∃ u usr, users st !! u = Some usr ∧ username usr = name) ∧
  (∀ k : Z,
     post_detail request k st = (raise Http404, st) ↔
     posts st !! k = None) ∧
  (0 < PAGE → unique_slugs st → unique_usernames st →
   referential_integrity st →
   (∀ g grp, groups st !! g = Some grp →
      ∃ pg,
        group_posts request (slug grp) st =
          (inr (Rendered "posts/group_list.html"
             [("group", VGroup (Some (g, grp)));
              ("posts",
               VPosts (filter (λ p, group p.2 = Some g) (Post_objects st)));
              ("page_obj", VPage pg);
              ("title", VStr ("Записи сообщества " +:+ Group_str grp))]),
           st)) ∧
   (∀ u usr, users st !! u = Some usr →
      ∃ pg,
        profile request (username usr) st =
          (inr (Rendered "posts/profile.html"
             [("author", VUser (u, usr));
              ("posts",
               VPosts (filter (λ p, author p.2 = u) (Post_objects st)));
              ("count_posts",
               VInt (Z.of_nat (length
                       (filter (λ p, author p.2 = u) (Post_objects st)))));
              ("page_obj", VPage pg);
              ("title", VStr ("Профайл пользователя " +:+ username usr))]),
           st)) ∧
   (∀ k p, posts st !! k = Some p →
      post_detail request k st =
        (inr (Rendered "posts/post_detail.html"
           [("post", VPost (k, p));
            ("group",
             VGroup (g ← group p; grp ← groups st !! g; Some (g, grp)));
            ("count_posts",
             VInt (Z.of_nat (length
                     (filter (λ r, author r.2 = author p)
                        (Post_objects st)))));
            ("title", VStr ("Пост " +:+ take_code_points 30 (text p)))]),
         st))).
Proof.
  split; [|split; [|split]].
  - intros s. rewrite group_posts_404. split.
    + intros Hall (g & grp & Hg & Hs). by apply (Hall g grp).
    + intros Hno g grp Hg Hs. apply Hno. eauto.
  - intros name. rewrite profile_404. split.
    + intros Hall (u & usr & Hu & Hn). by apply (Hall u usr).
    + intros Hno u usr Hu Hn. apply Hno. eauto.
  - intros k. apply post_detail_404.
  - intros HP Hslugs Hnames Hrefs. split; [|split].
    + intros g grp Hg.
      destruct (group_posts_response request st g grp HP Hslugs Hg)
        as (pg & _ & Hresp).
      by exists pg.
    + intros u usr Hu.
      destruct (profile_response request st u usr HP Hnames Hu)
        as (pg & _ & Hresp).
      by exists pg.
    + intros k p Hp. apply post_detail_response; [done|].
      by apply (Hrefs k p).
Qed.

(** C7. The listing of a group G consists of exactly the posts whose
    group reference is G: a stored post is in the listing if and only
    if its group is G, the page shown is drawn from that listing, every
    post of the listing is on one of its pages, and a post that refers
    to another group (or to none) is neither in the listing nor on the
    page. In particular, once a post has been created through the create
    handler, the listing of G holds it if and only if it was created
    with group G. *)
Theorem group_listing_exact request st (g : Z) (grp : Group) :
  0 < PAGE → unique_slugs st → groups st !! g = Some grp →
  ∃ (posts_ : list (Z * Post)) (pg : Paginator.Page (Z * Post)),
    group_posts request (slug grp) st =
      (inr (Rendered "posts/group_list.html"
              [("group", VGroup (Some (g, grp)));
               ("posts", VPosts posts_);
               ("page_obj", VPage pg);
               ("title", VStr ("Записи сообщества " +:+ Group_str grp))]),
       st) ∧
    (∀ k p, (k, p) ∈ posts_ ↔ posts st !! k = Some p ∧ group p = Some g) ∧
    (∀ r, r ∈ Paginator.page_object_list pg → r ∈ posts_) ∧
    (∀ r, r ∈ posts_ →
       ∃ n pg',
         Paginator.page py_int (Paginator.init posts_ PAGE) (PyInt n)
           = inr pg' ∧
         r ∈ Paginator.page_object_list pg') ∧
    (∀ k p, posts st !! k = Some p → group p ≠ Some g →
       ((k, p) ∉ posts_) ∧ ((k, p) ∉ Paginator.page_object_list pg)) ∧
    (∀ now submission (u : Z * User) form,
       user submission = Some u → method submission = "POST" →
       is_valid (PostForm_init (or_None (POST submission))
                   (or_None (FILES submission)) None) st
         = (inr (form, true), st) →
       let created :=
         (next_pk (posts st),
          {| text := inst_text (instance form); pub_date := now;
             author := u.1; group := inst_group (instance form);
             image := inst_image (instance form) |}) in
       let st' := (post_create now submission st).2 in
       ∃ posts_' pg',
         group_posts request (slug grp) st' =
           (inr (Rendered "posts/group_list.html"
                   [("group", VGroup (Some (g, grp)));
                    ("posts", VPosts posts_');
                    ("page_obj", VPage pg');
                    ("title",
                     VStr ("Записи сообщества " +:+ Group_str grp))]),
            st') ∧
         (created ∈ posts_' ↔ inst_group (instance form) = Some g)).
Proof.
  intros HP Hslugs Hg.
  destruct (group_posts_response request st g grp HP Hslugs Hg)
    as (pg & Hpg & Hresp).
  exists (filter (λ p, group p.2 = Some g) (Post_objects st)), pg.
  assert (∀ k p, (k, p) ∈ filter (λ p, group p.2 = Some g) (Post_objects st)
                 ↔ posts st !! k = Some p ∧ group p = Some g) as Hiff.
  { intros k p. rewrite list_elem_of_filter, elem_of_Post_objects.
    simpl. tauto. }
  assert (∀ r, r ∈ Paginator.page_object_list pg →
               r ∈ filter (λ p, group p.2 = Some g) (Post_objects st))
    as Hsub.
  { intros r Hr. eapply elem_of_sublist; [exact Hr|].
    by eapply get_page_sublist. }
  split; [done|]. split; [done|]. split; [done|]. split; [|split].
  - intros r Hr. by apply elem_of_some_page.
  - intros k p Hp Hne.
    assert ((k, p) ∉ filter (λ p, group p.2 = Some g) (Post_objects st))
      as Hnot by (rewrite Hiff; tauto).
    split; [done|]. intros Hin. by apply Hnot, Hsub.
  - intros now submission u form Hu Hm Hv created st'.
    subst st'. rewrite (post_create_valid now submission u st form Hu Hm Hv).
    simpl.
    match goal with
    | |- context [group_posts request (slug grp) ?s] => set (st' := s)
    end.
    destruct (group_posts_response request st' g grp HP Hslugs Hg)
      as (pg' & _ & Hresp').
    eexists _, pg'. split; [exact Hresp'|].
    rewrite list_elem_of_filter. subst created; simpl.
    rewrite elem_of_Post_objects. subst st'; simpl.
    rewrite lookup_insert_eq. split; [by intros [? _]|done].
Qed.

(** C8. A valid submission to the edit handler by the owner of the post
    updates that post in place: the row stored under the same id is
    replaced, no key is added or removed and no other row changes; the
    author written is the session's user, who already was the author;
    the timestamp is the reading of the server clock; and the answer is
    a redirect to the detail page of the post. *)
Theorem post_edit_updates now (post_id : Z) request (u : Z * User) st
    (p : Post) form :
  user request = Some u → method request = "POST" →
  posts st !! post_id = Some p → author p = u.1 →
  is_valid (PostForm_init (or_None (POST request))
              (or_None (FILES request))
              (Some (instance_of_row (post_id, p)))) st
    = (inr (form, true), st) →
  let row := {| text := inst_text (instance form); pub_date := now;
                author := u.1; group := inst_group (instance form);
                image := inst_image (instance form) |} in
  let st' := {| users := users st; groups := groups st;
                posts := <[post_id := row]> (posts st) |} in
  post_edit now post_id request st =
    (inr (HttpResponseRedirect "posts:post_detail" (UInt post_id)), st') ∧
  dom (posts st') = dom (posts st) ∧
  (∀ k, k ≠ post_id → posts st' !! k = posts st !! k) ∧
  posts st' !! post_id = Some row ∧
  author row = author p ∧
  pub_date row = now.
Proof.
  intros Hu Hm Hp Ha Hv row st'.
  pose proof Hv as Hv'.
  apply is_valid_true in Hv' as [Hb (cd & Hc & Hform)]; [|done].
  split; [|split; [|split; [|split]]].
  - unfold post_edit, login_required. rewrite Hu.
    unfold post_edit_view, view_bind at 1.
    rewrite (Post_owner_lookup st post_id u.1 p Hp Ha).
    rewrite (method_is_POST request Hm).
    unfold view_bind. rewrite Hv; simpl.
    rewrite form_save_cleaned by (by rewrite Hform).
    unfold Post_save, redirect, ret; simpl.
    subst st' row. by rewrite Hform.
  - simpl. apply dom_insert_lookup_L. by exists p.
  - intros k Hk. simpl. by apply lookup_insert_ne.
  - simpl. apply lookup_insert_eq.
  - by split.
Qed.

(** C9. The index handler lists the posts newest first: the listing it
    paginates and the page it shows are in descending order of creation
    time, and it renders with the site-updates title. The same ordering
    holds for the listings of the group and profile handlers. (The
    ordering itself is the one the data model of the spec gives to
    posts.) *)
Theorem listings_newest_first request st :
  0 < PAGE →
  (∃ pg,
     index request st =
       (inr (Rendered "posts/index.html"
               [("page_obj", VPage pg);
                ("title", VStr "Последние обновления на сайте")]), st) ∧
     Paginator.object_list (Paginator.paginator pg) = Post_objects st ∧
     descending_creation_time (Post_objects st) ∧
     descending_creation_time (Paginator.page_object_list pg)) ∧
  (∀ g grp, unique_slugs st → groups st !! g = Some grp →
     ∃ posts_ pg title_,
       group_posts request (slug grp) st =
         (inr (Rendered "posts/group_list.html"
                 [("group", VGroup (Some (g, grp)));
                  ("posts", VPosts posts_);
                  ("page_obj", VPage pg);
                  ("title", VStr title_)]), st) ∧
       descending_creation_time posts_ ∧
       descending_creation_time (Paginator.page_object_list pg)) ∧
  (∀ u usr, unique_usernames st → users st !! u = Some usr →
     ∃ posts_ count_posts pg title_,
       profile request (username usr) st =
         (inr (Rendered "posts/profile.html"
                 [("author", VUser (u, usr));
                  ("posts", VPosts posts_);
                  ("count_posts", VInt count_posts);
                  ("page_obj", VPage pg);
                  ("title", VStr title_)]), st) ∧
       descending_creation_time posts_ ∧
       descending_creation_time (Paginator.page_object_list pg)).
Proof.
  intros HP. repeat split.
  - destruct (index_response request st HP) as (pg & Hpg & Hresp).
    exists pg. split; [done|].
    pose proof (Post_objects_sorted st) as Hs.
    split; [|split].
    + destruct (get_page_window (Post_objects st) PAGE
                  (QueryDict_get (GET request) "page") HP)
        as (np & _ & _ & _ & Heq).
      rewrite Heq in Hpg. by injection Hpg as <-.
    + by apply StronglySorted_descending.
    + by eapply page_descending.
  - intros g grp Hslugs Hg.
    destruct (group_posts_response request st g grp HP Hslugs Hg)
      as (pg & Hpg & Hresp).
    eexists _, pg, _. split; [exact Hresp|].
    pose proof (filter_Post_objects_sorted
                  (λ p, group p.2 = Some g) st) as Hs.
    split; [by apply StronglySorted_descending|by eapply page_descending].
  - intros u usr Hnames Hu.
    destruct (profile_response request st u usr HP Hnames Hu)
      as (pg & Hpg & Hresp).
    eexists _, _, pg, _. split; [exact Hresp|].
    pose proof (filter_Post_objects_sorted
                  (λ p, author p.2 = u) st) as Hs.
    split; [by apply StronglySorted_descending|by eapply page_descending].
Qed.

(** C10. The four read handlers (index, group listing, profile, post
    detail) never modify persistent state: whatever the request and its
    parameters, and whether the handler answers or raises, the store
    (users, groups and posts) after the request is the store before
    it. *)
Theorem read_handlers_preserve_store request st
    (slug_ username_ : string) (post_id : Z) :
  (index request st).2 = st ∧
  (group_posts request slug_ st).2 = st ∧
  (profile request username_ st).2 = st ∧
  (post_detail request post_id st).2 = st.
Proof.
  repeat split.
  - enough (readonly (index request)) as Hr by apply Hr.
    unfold index. solve_readonly.
  - enough (readonly (group_posts request slug_)) as Hr by apply Hr.
    unfold group_posts. solve_readonly.
  - enough (readonly (profile request username_)) as Hr by apply Hr.
    unfold profile. solve_readonly.
  - enough (readonly (post_detail request post_id)) as Hr by apply Hr.
    unfold post_detail. solve_readonly.
Qed.
End claims.

(** * The model at work on the demo store *)

Lemma demo_unique_usernames : unique_usernames demo_store.
Proof. apply (bool_decide_unpack _). by vm_compute. Defined.

Lemma demo_unique_slugs : unique_slugs demo_store.
Proof. apply (bool_decide_unpack _). by vm_compute. Defined.

Lemma demo_referential_integrity : referential_integrity demo_store.
Proof. apply (bool_decide_unpack _). by vm_compute. Defined.

Lemma demo_page_positive : 0 < @PAGE demo.
Proof. reflexivity. Defined.

(** Thirteen posts, ten to a page: the index shows ten posts on page 1
    and the remaining three on page 2, and so do the group listing and the
    profile. *)
Example thirteen_posts_two_pages :
  let len_of (r : result HttpResponse * Store) :=
    match r.1 with
    | inr (Rendered _ context) =>
        omap (λ kv, match kv.2 with
                    | VPage pg => Some (Paginator.len pg)
                    | _ => None
                    end) context
    | _ => []
    end in
  let first := demo_request "GET" [] [] None in
  let second := demo_request "GET" [("page", "2")] [] None in
  len_of (@index demo first demo_store) = [10] ∧
  len_of (@index demo second demo_store) = [3] ∧
  len_of (@group_posts demo first "test-slug" demo_store) = [10] ∧
  len_of (@group_posts demo second "test-slug" demo_store) = [3] ∧
  len_of (@profile demo first "Masha" demo_store) = [10] ∧
  len_of (@profile demo second "Masha" demo_store) = [3].
Proof. by vm_compute. Qed.

(** The title of the detail page keeps the first thirty letters of a text
    of thirty-five Cyrillic letters (seventy bytes). *)
Example post_detail_title_by_code_points :
  let long := {| text := "абвгдежзийклмнопрстуфхцчшщъыьэюяабв";
                 pub_date := 100; author := 1; group := None;
                 image := None |} in
  let st := {| users := users fixture_store; groups := groups fixture_store;
               posts := {[ 7 := long ]} |} in
  context_get (post_detail (client_get None []) 7 st) "title"
  = Some (VStr "Пост абвгдежзийклмнопрстуфхцчшщъыьэ").
Proof. by vm_compute. Qed.

(** ** Instances of the theorems *)

(** C1 at work: the user HasNoName submits an edit of post 3, which
    belongs to Masha. *)
Lemma post_edit_not_found_witness :
  let request := demo_request "POST" [] [("text", "Hello")]
                   (Some (2, {| username := "HasNoName" |})) in
  user request = Some (2, {| username := "HasNoName" |}) ∧
  (posts demo_store !! 3 = None ∨
   ∃ p, posts demo_store !! 3 = Some p ∧ author p ≠ 2) ∧
  @post_edit demo 500 3 request demo_store = (raise Http404, demo_store).
Proof.
  intros request.
  assert (user request = Some (2, {| username := "HasNoName" |})) as H1
    by reflexivity.
  assert (posts demo_store !! 3 = None ∨
          ∃ p, posts demo_store !! 3 = Some p ∧ author p ≠ 2) as H2.
  { right. exists (demo_post 3). split; [reflexivity|]. simpl. lia. }
  split; [exact H1|]. split; [exact H2|].
  exact (proj1 (@post_edit_not_found demo 500 3 request _ demo_store H1 H2)).
Defined.

(** C2 at work: Masha submits the text "Hello" without a group, is
    redirected to her profile, and her profile then lists the post. *)
Lemma post_create_persists_witness :
  let request := demo_request "POST" [] [("text", "Hello")] (Some Masha) in
  let hello := {| text := "Hello"; pub_date := 500; author := 1;
                  group := None; image := None |} in
  ∃ form,
    user request = Some Masha ∧
    method request = "POST" ∧
    @is_valid demo
      (PostForm_init (or_None (POST request)) (or_None (FILES request)) None)
      demo_store = (inr (form, true), demo_store) ∧
    0 < @PAGE demo ∧
    unique_usernames demo_store ∧
    users demo_store !! Masha.1 = Some Masha.2 ∧
    (@post_create demo 500 request demo_store).1
      = inr (HttpResponseRedirect "posts:profile" (UStr "Masha")) ∧
    posts (@post_create demo 500 request demo_store).2 !! 14 = Some hello ∧
    ∃ context posts_,
      (@profile demo (demo_request "GET" [] [] None) "Masha"
         (@post_create demo 500 request demo_store).2).1
        = inr (Rendered "posts/profile.html" context) ∧
      ("posts", VPosts posts_) ∈ context ∧
      (14, hello) ∈ posts_.
Proof.
  intros request hello. eexists.
  assert (user request = Some Masha) as H1 by reflexivity.
  assert (method request = "POST") as H2 by reflexivity.
  assert (users demo_store !! Masha.1 = Some Masha.2) as H3 by reflexivity.
  split; [exact H1|]. split; [exact H2|].
  split; [vm_compute; reflexivity|].
  split; [exact demo_page_positive|]. split; [exact demo_unique_usernames|].
  split; [exact H3|].
  destruct (@post_create_persists demo 500 request Masha demo_store _
              H1 H2 eq_refl)
    as (_ & Hresp & _ & Hprofile).
  destruct (Hprofile demo_page_positive demo_unique_usernames H3
              (demo_request "GET" [] [] None))
    as (posts_ & pg & Hlisted & Hin & _).
  rewrite Hresp. split; [reflexivity|]. split; [vm_compute; reflexivity|].
  eexists _, posts_. split; [exact (f_equal fst Hlisted)|].
  split; [|exact Hin].
  apply elem_of_cons; right. apply elem_of_cons; left. reflexivity.
Defined.

(** C3, the claim as stated fails: a POST without any field or file is
    an invalid submission, and the form it gets back shows no validation
    error. *)
Lemma empty_submission_shows_no_errors :
  let request := demo_request "POST" [] [] (Some Masha) in
  (∃ form,
     @is_valid demo
       (PostForm_init (or_None (POST request)) (or_None (FILES request)) None)
       demo_store = (inr (form, false), demo_store)) ∧
  ¬ @rerendered_with_errors demo 500 request demo_store.
Proof.
  intros request. split.
  - eexists. reflexivity.
  - intros (form & Hresp & Herr).
    assert (form = PostForm_init None None None) as ->.
    { unfold post_create, login_required in Hresp. simpl in Hresp.
      by injection Hresp as <-. }
    by apply Herr.
Qed.

(** C3 as amended, at work: Masha submits an empty text. *)
Lemma post_create_invalid_witness :
  let request := demo_request "POST" [] [("text", "")] (Some Masha) in
  ∃ form,
    user request = Some Masha ∧
    method request = "POST" ∧
    @is_valid demo
      (PostForm_init (or_None (POST request)) (or_None (FILES request)) None)
      demo_store = (inr (form, false), demo_store) ∧
    (@post_create demo 500 request demo_store).2 = demo_store ∧
    response_status (@post_create demo 500 request demo_store).1 = 200 ∧
    @rerendered_with_errors demo 500 request demo_store.
Proof.
  intros request. eexists.
  assert (user request = Some Masha) as H1 by reflexivity.
  assert (method request = "POST") as H2 by reflexivity.
  split; [exact H1|]. split; [exact H2|].
  split; [vm_compute; reflexivity|].
  destruct (@post_create_invalid demo 500 request Masha demo_store _
              H1 H2 eq_refl) as (Hresp & Hstatus & Herrs & _).
  split; [by rewrite Hresp|]. split; [exact Hstatus|].
  apply Herrs. left. discriminate.
Defined.

(** C4, the claim as stated fails: an empty listing has one page, not
    ceil(0/10) = 0 pages. *)
Lemma empty_listing_not_as_specified : ¬ @pages_as_specified demo nat [] 10.
Proof.
  intros (np & Hnp & Hb & _).
  vm_compute in Hnp. injection Hnp as <-. simpl in Hb. lia.
Qed.

(** C4 as amended, at work: thirteen items, ten to a page. *)
Lemma pagination_page_sizes_witness :
  0 < 10 ∧ seq 0 13 ≠ [] ∧ @pages_as_specified demo nat (seq 0 13) 10.
Proof.
  assert (0 < 10) as H1 by lia.
  assert (seq 0 13 ≠ []) as H2 by discriminate.
  split; [exact H1|]. split; [exact H2|].
  exact (proj1 (@pagination_page_sizes demo nat (seq 0 13) 10 H1) H2).
Defined.

(** C5 at work: the index is asked for page 2 of thirteen posts. *)
Lemma page_parameter_selects_witness :
  let request := demo_request "GET" [("page", "2")] [] None in
  0 < @PAGE demo ∧
  ∃ pg,
    @index demo request demo_store =
      (inr (Rendered "posts/index.html"
              [("page_obj", VPage pg);
               ("title", VStr "Последние обновления на сайте")]),
       demo_store) ∧
    @selects_requested_page demo _ (PyStr "2") (Post_objects demo_store) pg.
Proof.
  intros request. split; [exact demo_page_positive|].
  exact (proj1 (@page_parameter_selects demo request demo_store
                  demo_page_positive)).
Defined.

(** C6 at work: post 3 exists and is rendered. *)
Lemma not_found_iff_missing_witness :
  let request := demo_request "GET" [] [] None in
  0 < @PAGE demo ∧
  unique_slugs demo_store ∧
  unique_usernames demo_store ∧
  referential_integrity demo_store ∧
  ∃ context,
    post_detail request 3 demo_store =
      (inr (Rendered "posts/post_detail.html" context), demo_store) ∧
    (post_detail request 100 demo_store = (raise Http404, demo_store)).
Proof.
  intros request.
  split; [exact demo_page_positive|]. split; [exact demo_unique_slugs|].
  split; [exact demo_unique_usernames|].
  split; [exact demo_referential_integrity|].
  pose proof (@not_found_iff_missing demo request demo_store)
    as (_ & _ & Habsent & Hpresent).
  destruct (Hpresent demo_page_positive demo_unique_slugs
              demo_unique_usernames demo_referential_integrity)
    as (_ & _ & Hdetail).
  eexists. split.
  - apply (Hdetail 3 (demo_post 3)). reflexivity.
  - apply (Habsent 100). reflexivity.
Defined.

(** C7 at work: the listing of the first group holds post 13, and the
    listing of the other group does not. *)
Lemma group_listing_exact_witness :
  let request := demo_request "GET" [] [] None in
  let test := {| title := "Test"; slug := "test-slug"; description := "d" |} in
  0 < @PAGE demo ∧
  unique_slugs demo_store ∧
  groups demo_store !! 1 = Some test ∧
  ∃ posts_ pg,
    @group_posts demo request "test-slug" demo_store =
      (inr (Rendered "posts/group_list.html"
              [("group", VGroup (Some (1, test)));
               ("posts", VPosts posts_);
               ("page_obj", VPage pg);
               ("title", VStr ("Записи сообщества " +:+ "Test"))]),
       demo_store) ∧
    (13, demo_post 13) ∈ posts_.
Proof.
  intros request test.
  assert (groups demo_store !! 1 = Some test) as H3 by reflexivity.
  split; [exact demo_page_positive|]. split; [exact demo_unique_slugs|].
  split; [exact H3|].
  destruct (@group_listing_exact demo request demo_store 1 test
              demo_page_positive demo_unique_slugs H3)
    as (posts_ & pg & Hresp & Hiff & _).
  exists posts_, pg. split; [exact Hresp|].
  apply Hiff. split; reflexivity.
Defined.

(** C8 at work: Masha rewrites her post 3. *)
Lemma post_edit_updates_witness :
  let request := demo_request "POST" [] [("text", "Hello")] (Some Masha) in
  ∃ form,
    user request = Some Masha ∧
    method request = "POST" ∧
    posts demo_store !! 3 = Some (demo_post 3) ∧
    author (demo_post 3) = Masha.1 ∧
    @is_valid demo
      (PostForm_init (or_None (POST request)) (or_None (FILES request))
         (Some (instance_of_row (3, demo_post 3))))
      demo_store = (inr (form, true), demo_store) ∧
    (@post_edit demo 500 3 request demo_store).1
      = inr (HttpResponseRedirect "posts:post_detail" (UInt 3)) ∧
    dom (posts (@post_edit demo 500 3 request demo_store).2)
      = dom (posts demo_store).
Proof.
  intros request. eexists.
  assert (user request = Some Masha) as H1 by reflexivity.
  assert (method request = "POST") as H2 by reflexivity.
  assert (posts demo_store !! 3 = Some (demo_post 3)) as H3 by reflexivity.
  assert (author (demo_post 3) = Masha.1) as H4 by reflexivity.
  split; [exact H1|]. split; [exact H2|]. split; [exact H3|].
  split; [exact H4|]. split; [vm_compute; reflexivity|].
  destruct (@post_edit_updates demo 500 3 request Masha demo_store
              (demo_post 3) _ H1 H2 H3 H4 eq_refl) as (Hresp & Hdom & _).
  rewrite Hresp. split; [reflexivity|exact Hdom].
Defined.

(** C9 at work: the first page of the index of the demo store. *)
Lemma listings_newest_first_witness :
  let request := demo_request "GET" [] [] None in
  0 < @PAGE demo ∧
  ∃ pg,
    @index demo request demo_store =
      (inr (Rendered "posts/index.html"
              [("page_obj", VPage pg);
               ("title", VStr "Последние обновления на сайте")]),
       demo_store) ∧
    descending_creation_time (Paginator.page_object_list pg).
Proof.
  intros request. split; [exact demo_page_positive|].
  destruct (proj1 (@listings_newest_first demo request demo_store
                     demo_page_positive))
    as (pg & Hresp & _ & _ & Hdesc).
  by exists pg.
Defined.

(** * Further properties of the handlers *)

Section handler_cases.
Context `{Project}.
Implicit Types (request : HttpRequest) (st : Store) (now : Z).

Lemma is_valid_total (form : PostForm) st :
  errors form = None →
  ∃ form' (b : bool), is_valid form st = (inr (form', b), st).
Proof.
  intros He. destruct (is_bound form) eqn:Hb.
  - destruct (PostForm_clean st (instance form) (default [] (data form))
                (default [] (files form))) as [errs cd] eqn:Hc.
    eexists _, _. by apply (is_valid_bound form st errs cd).
  - eexists _, _. by apply is_valid_unbound.
Qed.

Lemma method_not_POST request :
  method request ≠ "POST" → bool_decide (method request ≠ "POST") = true.
Proof. intros Hm. by apply bool_decide_eq_true. Qed.

(** *** The create handler, path by path *)

Lemma post_create_anonymous now request st :
  user request = None →
  post_create now request st = (inr RedirectToLogin, st).
Proof.
  intros Hu. unfold post_create, login_required. by rewrite Hu.
Qed.

Lemma post_create_not_POST now request (u : Z * User) st :
  user request = Some u → method request ≠ "POST" →
  post_create now request st =
    (inr (Rendered "posts/create_post.html"
            [("form", VForm (PostForm_init None None None));
             ("title", VStr "Создание поста")]), st).
Proof.
  intros Hu Hm. unfold post_create, login_required. rewrite Hu.
  unfold post_create_view. by rewrite (method_not_POST request Hm).
Qed.

Lemma post_create_rejected now request (u : Z * User) st form :
  user request = Some u → method request = "POST" →
  is_valid (PostForm_init (or_None (POST request))
              (or_None (FILES request)) None) st
    = (inr (form, false), st) →
  post_create now request st =
    (inr (Rendered "posts/create_post.html"
            [("form", VForm form); ("title", VStr "Создание поста")]), st).
Proof.
  intros Hu Hm Hv. unfold post_create, login_required. rewrite Hu.
  unfold post_create_view. rewrite (method_is_POST request Hm).
  unfold view_bind. by rewrite Hv.
Qed.

(** Every request to the create handler takes one of two courses: the
    store stays as it is, or an authenticated user has posted a valid
    form and one row is written under the next free key. *)
Lemma post_create_cases now request st :
  (post_create now request st).2 = st ∨
  ∃ (u : Z * User) form,
    user request = Some u ∧ method request = "POST" ∧
    is_valid (PostForm_init (or_None (POST request))
                (or_None (FILES request)) None) st
      = (inr (form, true), st) ∧
    post_create now request st =
      (inr (HttpResponseRedirect "posts:profile" (UStr (username u.2))),
       {| users := users st; groups := groups st;
          posts := <[next_pk (posts st) :=
                       {| text := inst_text (instance form);
                          pub_date := now; author := u.1;
                          group := inst_group (instance form);
                          image := inst_image (instance form) |}]>
                     (posts st) |}).
Proof.
  destruct (user request) as [u|] eqn:Hu.
  - destruct (decide (method request = "POST")) as [Hm|Hm].
    + destruct (is_valid_total
                  (PostForm_init (or_None (POST request))
                     (or_None (FILES request)) None) st eq_refl)
        as (form & [] & Hv).
      * right. exists u, form. do 3 (split; [done|]).
        by apply post_create_valid.
      * left. by rewrite (post_create_rejected now request u st form).
    + left. by rewrite (post_create_not_POST now request u st).
  - left. by rewrite post_create_anonymous.
Qed.

(** *** The edit handler, path by path *)

Lemma post_edit_anonymous now (post_id : Z) request st :
  user request = None →
  post_edit now post_id request st = (inr RedirectToLogin, st).
Proof.
  intros Hu. unfold post_edit, login_required. by rewrite Hu.
Qed.

Lemma post_edit_no_match now (post_id : Z) request (u : Z * User) st :
  user request = Some u →
  (∀ p, posts st !! post_id = Some p → author p ≠ u.1) →
  post_edit now post_id request st = (raise Http404, st).
Proof.
  intros Hu Hno. unfold post_edit, login_required. rewrite Hu.
  unfold post_edit_view, view_bind.
  assert (get_object_or_404 Post_objects
            (λ r : Z * Post, r.1 = post_id ∧ author r.2 = u.1) st
          = (raise Http404, st)) as ->; [|done].
  apply get_object_or_404_none.
  intros [k p] Hin%elem_of_Post_objects [Hk Ha]. simpl in *. subst k.
  by apply (Hno p).
Qed.

Lemma post_edit_not_POST now (post_id : Z) request (u : Z * User) st
    (p : Post) :
  user request = Some u → posts st !! post_id = Some p → author p = u.1 →
  method request ≠ "POST" →
  post_edit now post_id request st =
    (inr (Rendered "posts/update_post.html"
            [("form",
              VForm (PostForm_init None None
                       (Some (instance_of_row (post_id, p)))));
             ("is_edit", VBool true);
             ("post", VPost (post_id, p));
             ("title",
              VStr ("Редактрирование поста " +:+ pretty post_id))]), st).
Proof.
  intros Hu Hp Ha Hm. unfold post_edit, login_required. rewrite Hu.
  unfold post_edit_view, view_bind.
  rewrite (Post_owner_lookup st post_id u.1 p Hp Ha).
  by rewrite (method_not_POST request Hm).
Qed.

Lemma post_edit_rejected now (post_id : Z) request (u : Z * User) st
    (p : Post) form :
  user request = Some u → posts st !! post_id = Some p → author p = u.1 →
  method request = "POST" →
  is_valid (PostForm_init (or_None (POST request))
              (or_None (FILES request))
              (Some (instance_of_row (post_id, p)))) st
    = (inr (form, false), st) →
  post_edit now post_id request st =
    (inr (Rendered "posts/update_post.html"
            [("form", VForm form);
             ("is_edit", VBool true);
             ("title",
              VStr ("Редактрирование поста " +:+ pretty post_id))]), st).
Proof.
  intros Hu Hp Ha Hm Hv. unfold post_edit, login_required. rewrite Hu.
  unfold post_edit_view, view_bind at 1.
  rewrite (Post_owner_lookup st post_id u.1 p Hp Ha).
  rewrite (method_is_POST request Hm).
  unfold view_bind. by rewrite Hv.
Qed.

Lemma post_edit_valid now (post_id : Z) request (u : Z * User) st
    (p : Post) form :
  user request = Some u → posts st !! post_id = Some p → author p = u.1 →
  method request = "POST" →
  is_valid (PostForm_init (or_None (POST request))
              (or_None (FILES request))
              (Some (instance_of_row (post_id, p)))) st
    = (inr (form, true), st) →
  post_edit now post_id request st =
    (inr (HttpResponseRedirect "posts:post_detail" (UInt post_id)),
     {| users := users st; groups := groups st;
        posts := <[post_id :=
                     {| text := inst_text (instance form); pub_date := now;
                        author := u.1; group := inst_group (instance form);
                        image := inst_image (instance form) |}]>
                   (posts st) |}).
Proof.
  intros Hu Hp Ha Hm Hv.
  pose proof Hv as Hv'.
  apply is_valid_true in Hv' as [Hb (cd & Hc & Hform)]; [|done].
  unfold post_edit, login_required. rewrite Hu.
  unfold post_edit_view, view_bind at 1.
  rewrite (Post_owner_lookup st post_id u.1 p Hp Ha).
  rewrite (method_is_POST request Hm).
  unfold view_bind. rewrite Hv; simpl.
  rewrite form_save_cleaned by (by rewrite Hform).
  unfold Post_save, redirect, ret; simpl.
  by rewrite Hform.
Qed.

(** Every request to the edit handler takes one of two courses: the
    store stays as it is, or the owner of the post has posted a valid
    form and the row of that post is overwritten. *)
Lemma post_edit_cases now (post_id : Z) request st :
  (post_edit now post_id request st).2 = st ∨
  ∃ (u : Z * User) (p : Post) form,
    user request = Some u ∧ method request = "POST" ∧
    posts st !! post_id = Some p ∧ author p = u.1 ∧
    is_valid (PostForm_init (or_None (POST request))
                (or_None (FILES request))
                (Some (instance_of_row (post_id, p)))) st
      = (inr (form, true), st) ∧
    post_edit now post_id request st =
      (inr (HttpResponseRedirect "posts:post_detail" (UInt post_id)),
       {| users := users st; groups := groups st;
          posts := <[post_id :=
                       {| text := inst_text (instance form);
                          pub_date := now; author := u.1;
                          group := inst_group (instance form);
                          image := inst_image (instance form) |}]>
                     (posts st) |}).
Proof.
  destruct (user request) as [u|] eqn:Hu;
    [|left; by rewrite post_edit_anonymous].
  destruct (posts st !! post_id) as [p|] eqn:Hp; last first.
  { left. rewrite (post_edit_no_match now post_id request u st); [done..|].
    intros p. by rewrite Hp. }
  destruct (decide (author p = u.1)) as [Ha|Ha].
  - destruct (decide (method request = "POST")) as [Hm|Hm].
    + destruct (is_valid_total
                  (PostForm_init (or_None (POST request))
                     (or_None (FILES request))
                     (Some (instance_of_row (post_id, p)))) st eq_refl)
        as (form & [] & Hv).
      * right. exists u, p, form. do 5 (split; [done|]).
        by apply (post_edit_valid now post_id request u st p).
      * left. by rewrite (post_edit_rejected now post_id request u st p form).
    + left. by rewrite (post_edit_not_POST now post_id request u st p).
  - left. rewrite (post_edit_no_match now post_id request u st); [done..|].
    intros p'. rewrite Hp. by intros [= <-].
Qed.
End handler_cases.

Section more_properties.
Context `{Project}.
Implicit Types (request : HttpRequest) (st : Store) (now : Z).

(** X1. A request without an authenticated user never reaches the create
    or the edit view: whatever its method, its body and the post id, it is
    answered with the redirect to the login page (status 302) and the
    store is left as it was. *)
Theorem anonymous_writes_redirected now (post_id : Z) request st :
  user request = None →
  post_create now request st = (inr RedirectToLogin, st) ∧
  post_edit now post_id request st = (inr RedirectToLogin, st) ∧
  response_status (post_create now request st).1 = 302 ∧
  response_status (post_edit now post_id request st).1 = 302.
Proof.
  intros Hu.
  rewrite (post_create_anonymous now request st Hu).
  by rewrite (post_edit_anonymous now post_id request st Hu).
Qed.

(** X2. A request to the create handler whose method is not POST is not a
    submission, even when it carries a body: the handler renders the
    create template at status 200 with a fresh, unbound form that shows
    no errors, and stores nothing. *)
Theorem post_create_shows_blank_form now request (u : Z * User) st :
  user request = Some u → method request ≠ "POST" →
  ∃ form,
    post_create now request st =
      (inr (Rendered "posts/create_post.html"
              [("form", VForm form); ("title", VStr "Создание поста")]),
       st) ∧
    response_status (post_create now request st).1 = 200 ∧
    is_bound form = false ∧
    instance form = Post_new ∧
    shown_errors st form = [].
Proof.
  intros Hu Hm. exists (PostForm_init None None None).
  rewrite (post_create_not_POST now request u st Hu Hm).
  do 4 (split; [done|]). by apply shown_errors_unbound.
Qed.

(** X3. A request by the owner of a post to the edit handler whose method
    is not POST gets the edit template at status 200 with an unbound form
    filled from the stored post (its id, text, group and image), the flag
    [is_edit] and the post itself; nothing is stored. *)
Theorem post_edit_shows_prefilled_form now (post_id : Z) request
    (u : Z * User) st (p : Post) :
  user request = Some u → posts st !! post_id = Some p → author p = u.1 →
  method request ≠ "POST" →
  ∃ form,
    post_edit now post_id request st =
      (inr (Rendered "posts/update_post.html"
              [("form", VForm form);
               ("is_edit", VBool true);
               ("post", VPost (post_id, p));
               ("title",
                VStr ("Редактрирование поста " +:+ pretty post_id))]),
       st) ∧
    response_status (post_edit now post_id request st).1 = 200 ∧
    is_bound form = false ∧
    pk (instance form) = Some post_id ∧
    inst_text (instance form) = text p ∧
    inst_group (instance form) = group p ∧
    inst_image (instance form) = image p.
Proof.
  intros Hu Hp Ha Hm.
  exists (PostForm_init None None (Some (instance_of_row (post_id, p)))).
  by rewrite (post_edit_not_POST now post_id request u st p Hu Hp Ha Hm).
Qed.

(** X4. An invalid submission to the edit handler by the owner of the
    post changes nothing: the stored post is what it was, and the edit
    template is rendered again at status 200 with the form that failed,
    the flag [is_edit] and the title, but without the [post] entry that
    the first display has. The form shows errors whenever the submission
    carried a field or a file. *)
Theorem post_edit_invalid now (post_id : Z) request (u : Z * User) st
    (p : Post) form :
  user request = Some u → posts st !! post_id = Some p → author p = u.1 →
  method request = "POST" →
  is_valid (PostForm_init (or_None (POST request))
              (or_None (FILES request))
              (Some (instance_of_row (post_id, p)))) st
    = (inr (form, false), st) →
  post_edit now post_id request st =
    (inr (Rendered "posts/update_post.html"
            [("form", VForm form);
             ("is_edit", VBool true);
             ("title",
              VStr ("Редактрирование поста " +:+ pretty post_id))]), st) ∧
  response_status (post_edit now post_id request st).1 = 200 ∧
  posts (post_edit now post_id request st).2 !! post_id = Some p ∧
  context_get (post_edit now post_id request st) "post" = None ∧
  (POST request ≠ [] ∨ FILES request ≠ [] → shown_errors st form ≠ []).
Proof.
  intros Hu Hp Ha Hm Hv.
  rewrite (post_edit_rejected now post_id request u st p form
             Hu Hp Ha Hm Hv).
  do 4 (split; [done|]).
  intros Hbound%(is_bound_init _ _ (Some (instance_of_row (post_id, p)))).
  apply is_valid_false in Hv as [[Hb _]|[_ (errs & He & Hne)]]; [| |done].
  - congruence.
  - by rewrite (shown_errors_cached st form errs He).
Qed.

(** X5. Whatever the request, the edit handler never touches the users
    or the groups, never adds or removes a post, never changes a post
    other than the one it is asked for, and never changes a post whose
    author is not the session's user. When a row does change, the request
    was a POST by the author of that row, and the new row carries the same
    author and the clock reading as its timestamp. *)
Theorem post_edit_frame now (post_id : Z) request st :
  let st' := (post_edit now post_id request st).2 in
  users st' = users st ∧
  groups st' = groups st ∧
  dom (posts st') = dom (posts st) ∧
  (∀ k, k ≠ post_id → posts st' !! k = posts st !! k) ∧
  (∀ k p, posts st !! k = Some p →
          (∀ u : Z * User, user request = Some u → author p ≠ u.1) →
          posts st' !! k = Some p) ∧
  (∀ k p', posts st' !! k = Some p' → posts st !! k ≠ Some p' →
     k = post_id ∧ method request = "POST" ∧
     ∃ (u : Z * User) p,
       user request = Some u ∧ posts st !! k = Some p ∧
       author p = u.1 ∧ author p' = u.1 ∧ pub_date p' = now).
Proof.
  intros st'. subst st'.
  destruct (post_edit_cases now post_id request st)
    as [->|(u & p & form & Hu & Hm & Hp & Ha & _ & ->)]; simpl.
  - repeat split; try done; intros k p' Hk Hne; by destruct Hne.
  - split; [done|]. split; [done|]. split; [|split; [|split]].
    + apply dom_insert_lookup_L. by exists p.
    + intros k Hk. by apply lookup_insert_ne.
    + intros k q Hq Hforeign.
      destruct (decide (k = post_id)) as [->|Hk].
      * rewrite Hp in Hq. injection Hq as <-. by destruct (Hforeign u Hu).
      * by rewrite lookup_insert_ne.
    + intros k p' Hk Hne.
      destruct (decide (k = post_id)) as [->|Hk'].
      * rewrite lookup_insert_eq in Hk. injection Hk as <-.
        split; [done|]. split; [done|]. by exists u, p.
      * rewrite lookup_insert_ne in Hk by done. by destruct Hne.
Qed.

(** X6. Whatever the request, the create handler never touches the users
    or the groups and never changes or removes a stored post; it adds at
    most one post. When a row appears, its key was free, the request was a
    POST by an authenticated user, that user is the author of the row and
    the clock reading its timestamp. *)
Theorem post_create_frame now request st :
  let st' := (post_create now request st).2 in
  users st' = users st ∧
  groups st' = groups st ∧
  (∀ k p, posts st !! k = Some p → posts st' !! k = Some p) ∧
  (size (posts st') ≤ size (posts st) + 1)%nat ∧
  (∀ k p', posts st' !! k = Some p' → posts st !! k ≠ Some p' →
     posts st !! k = None ∧ method request = "POST" ∧
     ∃ u : Z * User,
       user request = Some u ∧ author p' = u.1 ∧ pub_date p' = now).
Proof.
  intros st'. subst st'.
  destruct (post_create_cases now request st)
    as [->|(u & form & Hu & Hm & _ & ->)]; simpl.
  - repeat split; try done; try lia; intros k p' Hk Hne; by destruct Hne.
  - pose proof (next_pk_fresh (posts st)) as Hfresh.
    split; [done|]. split; [done|]. split; [|split].
    + intros k p Hk. rewrite lookup_insert_ne; [done|].
      intros <-. congruence.
    + rewrite map_size_insert_None by done. lia.
    + intros k p' Hk Hne.
      destruct (decide (k = next_pk (posts st))) as [->|Hk'].
      * rewrite lookup_insert_eq in Hk. injection Hk as <-.
        split; [done|]. split; [done|]. by exists u.
      * rewrite lookup_insert_ne in Hk by done. by destruct Hne.
Qed.

End more_properties.

Section listing_properties.
Context `{Project}.
Implicit Types (request : HttpRequest) (st : Store) (now : Z).

Lemma filter_all {A} (P : A → Prop) `{∀ x, Decision (P x)} (l : list A) :
  (∀ x, x ∈ l → P x) → filter P l = l.
Proof.
  induction l as [|x l IH]; intros Hall; [done|].
  rewrite filter_cons_True by (apply Hall; left).
  f_equal. apply IH. intros y Hy. apply Hall. by right.
Qed.

Lemma Post_objects_length st :
  length (Post_objects st) = size (posts st).
Proof. by rewrite Post_objects_perm, length_map_to_list. Qed.

Lemma Post_objects_singleton st (k : Z) (p : Post) :
  posts st = {[k := p]} → Post_objects st = [(k, p)].
Proof.
  intros Heq. unfold Post_objects. by rewrite Heq, map_to_list_singleton.
Qed.

(** The size of the page [get_page] returns. *)
Lemma get_page_len {A} (l : list A) (P : Z) (v : pyval) :
  0 < P →
  ∃ np pg,
    Paginator.num_pages (Paginator.init l P) = inr np ∧
    (np - 1) * P < Z.max 1 (Z.of_nat (length l)) ≤ np * P ∧
    1 ≤ requested_page v np ≤ np ∧
    Paginator.get_page py_int (Paginator.init l P) v = inr pg ∧
    Paginator.len pg =
      Z.min P (Z.of_nat (length l) - (requested_page v np - 1) * P).
Proof.
  intros HP.
  destruct (get_page_window l P v HP) as (np & Hnp & Hnp1 & Hb & Hpg).
  pose proof (requested_page_in_range v np Hnp1) as HK.
  eexists np, _. do 3 (split; [done|]). split; [exact Hpg|].
  unfold Paginator.len; simpl. rewrite length_take, length_drop. nia.
Qed.

Lemma concat_windows {A} (l : list A) (P : Z) (n : nat) :
  0 < P →
  concat ((λ k, take (Z.to_nat P) (drop (Z.to_nat ((k - 1) * P)) l))
            <$> seqZ 1 (Z.of_nat n))
  = take (n * Z.to_nat P) l.
Proof.
  intros HP. induction n as [|n IH]; [done|].
  rewrite seqZ_S, fmap_app, concat_app, IH; simpl.
  rewrite app_nil_r.
  replace (Z.to_nat ((1 + Z.of_nat n - 1) * P)) with (n * Z.to_nat P)%nat
    by nia.
  rewrite take_take_drop. f_equal. lia.
Qed.

(** X9. The number of posts shown on a post's detail page is the number
    of posts of its author: it equals the count shown on the author's
    profile and the length of the listing the profile carries, which
    holds exactly the stored posts of that author; it is at least 1, the
    post itself being one of them. *)
Theorem count_posts_consistent request request' st (k : Z) (p : Post)
    (usr : User) :
  0 < PAGE → unique_usernames st → referential_integrity st →
  posts st !! k = Some p → users st !! author p = Some usr →
  ∃ (n : Z) (posts_ : list (Z * Post)),
    context_get (post_detail request k st) "count_posts" = Some (VInt n) ∧
    context_get (profile request' (username usr) st) "count_posts"
      = Some (VInt n) ∧
    context_get (profile request' (username usr) st) "posts"
      = Some (VPosts posts_) ∧
    Z.of_nat (length posts_) = n ∧
    (∀ k' p', (k', p') ∈ posts_ ↔
              posts st !! k' = Some p' ∧ author p' = author p) ∧
    1 ≤ n.
Proof.
  intros HP Hnames Hrefs Hk Hu.
  destruct (profile_response request' st (author p) usr HP Hnames Hu)
    as (pg & _ & Hprofile).
  pose proof (post_detail_response request st k p Hk (Hrefs k p Hk))
    as Hdetail.
  eexists _, (filter (λ r, author r.2 = author p) (Post_objects st)).
  rewrite Hdetail, Hprofile.
  split; [reflexivity|]. split; [reflexivity|]. split; [reflexivity|].
  split; [reflexivity|].
  assert (∀ k' p',
            (k', p') ∈ filter (λ r, author r.2 = author p) (Post_objects st)
            ↔ posts st !! k' = Some p' ∧ author p' = author p) as Hiff.
  { intros k' p'. rewrite list_elem_of_filter, elem_of_Post_objects.
    simpl. tauto. }
  split; [exact Hiff|].
  assert ((k, p) ∈ filter (λ r, author r.2 = author p) (Post_objects st))
    as Hin by by apply Hiff.
  destruct (filter (λ r, author r.2 = author p) (Post_objects st));
    [by apply elem_of_nil in Hin|simpl; lia].
Qed.

(** X10. Pagination loses nothing and repeats nothing: for a positive page
    size, the pages 1, 2, ..., up to the number of pages all exist, and
    their rows put end to end are the listing itself. *)
Theorem pages_partition_listing {A} (l : list A) (P np : Z) :
  0 < P →
  Paginator.num_pages (Paginator.init l P) = inr np →
  ∃ pages : list (Paginator.Page A),
    Forall2 (λ k pg, Paginator.page py_int (Paginator.init l P) (PyInt k)
                     = inr pg)
      (seqZ 1 np) pages ∧
    concat (Paginator.page_object_list <$> pages) = l.
Proof.
  intros HP Hnp.
  destruct (num_pages_init l P HP) as (np' & Hnp' & Hnp1 & Hb).
  rewrite Hnp in Hnp'. injection Hnp' as <-.
  exists ((λ k, Paginator.BuildPage
                  (take (Z.to_nat P) (drop (Z.to_nat ((k - 1) * P)) l))
                  k (Paginator.init l P)) <$> seqZ 1 np).
  split.
  - apply Forall2_fmap_r, Forall_Forall2_diag, Forall_forall.
    intros k Hk%elem_of_seqZ.
    apply (page_in_range l P np); [done..|lia].
  - rewrite <- list_fmap_compose.
    transitivity (take (Z.to_nat np * Z.to_nat P) l); [|apply take_ge; nia].
    rewrite <- (concat_windows l P (Z.to_nat np) HP).
    rewrite Z2Nat.id by lia. reflexivity.
Qed.

(** X11. The page a listing handler shows never holds more rows than the
    page size, and it is empty only when the listing itself is empty:
    whatever the [page] parameter, the index shows between 1 and [PAGE]
    posts as soon as one post is stored, and none when none is. *)
Theorem index_page_size_bounds request st :
  0 < PAGE →
  ∃ n : Z,
    page_obj_len (index request st) = Some n ∧
    0 ≤ n ≤ PAGE ∧
    (1 ≤ n ↔ posts st ≠ ∅).
Proof.
  intros HP.
  destruct (get_page_len (Post_objects st) PAGE
              (QueryDict_get (GET request) "page") HP)
    as (np & pg & _ & Hb & HK & Hpg & Hlen).
  exists (Paginator.len pg). split.
  - unfold index, view_bind, query, lift, render, ret. by rewrite Hpg.
  - rewrite Hlen, Post_objects_length in *.
    assert (posts st ≠ ∅ ↔ (0 < size (posts st))%nat) as ->.
    { rewrite <- map_size_non_empty_iff. lia. }
    split; [nia|]. split; nia.
Qed.
End listing_properties.

Section test_properties.
Context `{Project}.
Implicit Types (request : HttpRequest) (st : Store) (now : Z).

Lemma page_obj_len_index request st pg :
  Paginator.get_page py_int (Paginator.init (Post_objects st) PAGE)
    (QueryDict_get (GET request) "page") = inr pg →
  page_obj_len (index request st) = Some (Paginator.len pg).
Proof.
  intros Hpg. unfold index, view_bind, query, lift, render, ret.
  by rewrite Hpg.
Qed.

(** Thirteen rows, ten to a page: the first page has ten, the page asked
    for as "2" has three. *)
Lemma thirteen_rows {A} (l : list A) :
  PAGE = 10 → py_int "2" = Some 2 → length l = 13%nat →
  (∃ pg, Paginator.get_page py_int (Paginator.init l PAGE) PyNone = inr pg ∧
         Paginator.len pg = 10) ∧
  (∃ pg, Paginator.get_page py_int (Paginator.init l PAGE) (PyStr "2")
           = inr pg ∧
         Paginator.len pg = 3).
Proof.
  intros HP Hint Hlen.
  assert (0 < PAGE) as Hpos by lia.
  split.
  - destruct (get_page_len l PAGE PyNone Hpos)
      as (np & pg & _ & Hb & _ & Hpg & Hl).
    exists pg. split; [done|]. rewrite Hl, Hlen, HP.
    by unfold requested_page.
  - destruct (get_page_len l PAGE (PyStr "2") Hpos)
      as (np & pg & _ & Hb & _ & Hpg & Hl).
    exists pg. split; [done|]. rewrite Hl, Hlen, HP.
    rewrite Hlen, HP in Hb. assert (np = 2) as -> by lia.
    unfold requested_page, Paginator.int_. by rewrite Hint.
Qed.

(** X12. The paginator test holds for every store built like its fixture.
    When the page size is 10 and the store holds 13 posts, all by one
    author and in one group, a guest who asks for the index, for the
    listing of that group or for the profile of that author gets 10 posts,
    and gets the remaining 3 when asking for page "2". *)
Theorem thirteen_posts_ten_and_three st (u g : Z) (usr : User)
    (grp : Group) :
  PAGE = 10 → py_int "2" = Some 2 →
  unique_usernames st → unique_slugs st →
  users st !! u = Some usr → groups st !! g = Some grp →
  size (posts st) = 13%nat →
  (∀ k p, posts st !! k = Some p → author p = u ∧ group p = Some g) →
  let first := client_get None [] in
  let second := client_get None [("page", "2")] in
  page_obj_len (index first st) = Some 10 ∧
  page_obj_len (index second st) = Some 3 ∧
  page_obj_len (group_posts first (slug grp) st) = Some 10 ∧
  page_obj_len (group_posts second (slug grp) st) = Some 3 ∧
  page_obj_len (profile first (username usr) st) = Some 10 ∧
  page_obj_len (profile second (username usr) st) = Some 3.
Proof.
  intros HP Hint Hnames Hslugs Hu Hg Hsize Hall first second.
  assert (0 < PAGE) as Hpos by lia.
  assert (length (Post_objects st) = 13%nat) as Hlen
    by by rewrite Post_objects_length.
  assert (filter (λ p, group p.2 = Some g) (Post_objects st)
          = Post_objects st) as Hfg.
  { apply filter_all. intros [k p] Hin%elem_of_Post_objects.
    by destruct (Hall k p Hin). }
  assert (filter (λ p, author p.2 = u) (Post_objects st)
          = Post_objects st) as Hfu.
  { apply filter_all. intros [k p] Hin%elem_of_Post_objects.
    by destruct (Hall k p Hin). }
  destruct (thirteen_rows (Post_objects st) HP Hint Hlen)
    as [(pg1 & Hpg1 & Hl1) (pg2 & Hpg2 & Hl2)].
  assert (QueryDict_get (GET first) "page" = PyNone) as Hq1 by done.
  assert (QueryDict_get (GET second) "page" = PyStr "2") as Hq2 by done.
  split; [|split; [|split; [|split; [|split]]]].
  - by rewrite (page_obj_len_index first st pg1 Hpg1), Hl1.
  - by rewrite (page_obj_len_index second st pg2 Hpg2), Hl2.
  - destruct (group_posts_response first st g grp Hpos Hslugs Hg)
      as (pg & Hpg & ->).
    rewrite Hfg, Hq1, Hpg1 in Hpg.
    injection Hpg as <-. unfold page_obj_len; simpl. by rewrite Hl1.
  - destruct (group_posts_response second st g grp Hpos Hslugs Hg)
      as (pg & Hpg & ->).
    rewrite Hfg, Hq2, Hpg2 in Hpg.
    injection Hpg as <-. unfold page_obj_len; simpl. by rewrite Hl2.
  - destruct (profile_response first st u usr Hpos Hnames Hu)
      as (pg & Hpg & ->).
    rewrite Hfu, Hq1, Hpg1 in Hpg.
    injection Hpg as <-. unfold page_obj_len; simpl. by rewrite Hl1.
  - destruct (profile_response second st u usr Hpos Hnames Hu)
      as (pg & Hpg & ->).
    rewrite Hfu, Hq2, Hpg2 in Hpg.
    injection Hpg as <-. unfold page_obj_len; simpl. by rewrite Hl2.
Qed.

Lemma single_row_page {A} (x : A) (v : pyval) :
  0 < PAGE →
  ∃ pg, Paginator.get_page py_int (Paginator.init [x] PAGE) v = inr pg ∧
        Paginator.page_object_list pg = [x].
Proof.
  intros HP.
  destruct (get_page_window [x] PAGE v HP) as (np & _ & Hnp1 & Hb & Hpg).
  pose proof (requested_page_in_range v np Hnp1) as HK.
  simpl in Hb. assert (np = 1) as -> by nia.
  assert (requested_page v 1 = 1) as HK1 by lia.
  rewrite HK1 in Hpg. eexists. split; [exact Hpg|]. simpl.
  destruct (Z.to_nat PAGE) as [|n] eqn:Hn; [lia|]. by destruct n.
Qed.

(** X13. The context tests hold for every store built like their fixture.
    When the store holds a single post, that post is the first row of the
    page shown by the index, by the listing of its group and by the
    profile of its author, whatever the [page] parameter of the request
    and whoever sends it. *)
Theorem single_post_heads_every_listing request st (k g : Z) (p : Post)
    (usr : User) (grp : Group) :
  0 < PAGE → unique_usernames st → unique_slugs st →
  posts st = {[ k := p ]} →
  users st !! author p = Some usr →
  group p = Some g → groups st !! g = Some grp →
  page_obj_first (index request st) = Some (k, p) ∧
  page_obj_first (group_posts request (slug grp) st) = Some (k, p) ∧
  page_obj_first (profile request (username usr) st) = Some (k, p).
Proof.
  intros HP Hnames Hslugs Hposts Hu Hgp Hg.
  pose proof (Post_objects_singleton st k p Hposts) as Hobj.
  destruct (single_row_page (k, p)
              (QueryDict_get (GET request) "page") HP) as (pg1 & Hpg1 & Hl1).
  split; [|split].
  - unfold index, view_bind, query, lift, render, ret.
    rewrite Hobj, Hpg1. unfold page_obj_first; simpl. by rewrite Hl1.
  - destruct (group_posts_response request st g grp HP Hslugs Hg)
      as (pg & Hpg & ->).
    rewrite Hobj in Hpg. rewrite filter_cons_True in Hpg by done.
    rewrite filter_nil in Hpg. rewrite Hpg1 in Hpg. injection Hpg as <-.
    unfold page_obj_first; simpl. by rewrite Hl1.
  - destruct (profile_response request st (author p) usr HP Hnames Hu)
      as (pg & Hpg & ->).
    rewrite Hobj in Hpg. rewrite filter_cons_True in Hpg by done.
    rewrite filter_nil in Hpg. rewrite Hpg1 in Hpg. injection Hpg as <-.
    unfold page_obj_first; simpl. by rewrite Hl1.
Qed.

(** X14. The redirect of a successful edit leads somewhere: after a valid
    submission by the owner, the detail page of the same id is not a 404,
    and (the new row referring to a stored author and group) it is
    rendered at status 200 and shows the post as edited, with the text and
    group the form bound and the clock reading as its timestamp. *)
Theorem edited_post_is_shown now (post_id : Z) request request'
    (u : Z * User) st (p : Post) form :
  user request = Some u → method request = "POST" →
  posts st !! post_id = Some p → author p = u.1 →
  is_valid (PostForm_init (or_None (POST request))
              (or_None (FILES request))
              (Some (instance_of_row (post_id, p)))) st
    = (inr (form, true), st) →
  let row := {| text := inst_text (instance form); pub_date := now;
                author := u.1; group := inst_group (instance form);
                image := inst_image (instance form) |} in
  let st' := (post_edit now post_id request st).2 in
  post_detail request' post_id st' ≠ (raise Http404, st') ∧
  (refers_to_existing st row →
   context_get (post_detail request' post_id st') "post"
     = Some (VPost (post_id, row)) ∧
   response_status (post_detail request' post_id st').1 = 200 ∧
   (post_detail request' post_id st').2 = st').
Proof.
  intros Hu Hm Hp Ha Hv row st'. subst st'.
  rewrite (post_edit_valid now post_id request u st p form Hu Hp Ha Hm Hv).
  simpl.
  match goal with
  | |- context [post_detail request' post_id ?s] => set (st' := s)
  end.
  assert (posts st' !! post_id = Some row) as Hrow
    by apply lookup_insert_eq.
  split.
  - rewrite post_detail_404. by rewrite Hrow.
  - intros Hrefs.
    by rewrite (post_detail_response request' st' post_id row Hrow Hrefs).
Qed.
End test_properties.

(** ** Instances of the further properties *)


Lemma fixture_unique_usernames : unique_usernames fixture_store.
Proof. apply (bool_decide_unpack _). by vm_compute. Defined.

Lemma fixture_unique_slugs : unique_slugs fixture_store.
Proof. apply (bool_decide_unpack _). by vm_compute. Defined.

(** X1 at work: a guest posts to the create and to the edit URL. *)
Lemma anonymous_writes_redirected_witness :
  let request := demo_request "POST" [] [("text", "Hello")] None in
  user request = None ∧
  @post_create demo 500 request demo_store
    = (inr RedirectToLogin, demo_store) ∧
  @post_edit demo 500 3 request demo_store
    = (inr RedirectToLogin, demo_store).
Proof.
  intros request.
  assert (user request = None) as H1 by reflexivity.
  split; [exact H1|].
  destruct (@anonymous_writes_redirected demo 500 3 request demo_store H1)
    as (Hc & He & _).
  split; [exact Hc|exact He].
Defined.

(** X2 at work: Masha opens the create page. *)
Lemma post_create_shows_blank_form_witness :
  let request := demo_request "GET" [] [] (Some Masha) in
  user request = Some Masha ∧
  method request ≠ "POST" ∧
  response_status (@post_create demo 500 request demo_store).1 = 200 ∧
  (@post_create demo 500 request demo_store).2 = demo_store.
Proof.
  intros request.
  assert (user request = Some Masha) as H1 by reflexivity.
  assert (method request ≠ "POST") as H2 by discriminate.
  split; [exact H1|]. split; [exact H2|].
  destruct (@post_create_shows_blank_form demo 500 request Masha demo_store
              H1 H2) as (form & Hresp & Hstatus & _).
  split; [exact Hstatus|]. by rewrite Hresp.
Defined.

(** X3 at work: Masha opens the edit page of her post 3. *)
Lemma post_edit_shows_prefilled_form_witness :
  let request := demo_request "GET" [] [] (Some Masha) in
  user request = Some Masha ∧
  posts demo_store !! 3 = Some (demo_post 3) ∧
  author (demo_post 3) = Masha.1 ∧
  method request ≠ "POST" ∧
  ∃ form,
    context_get (@post_edit demo 500 3 request demo_store) "form"
      = Some (VForm form) ∧
    inst_text (instance form) = "post".
Proof.
  intros request.
  assert (user request = Some Masha) as H1 by reflexivity.
  assert (posts demo_store !! 3 = Some (demo_post 3)) as H2 by reflexivity.
  assert (author (demo_post 3) = Masha.1) as H3 by reflexivity.
  assert (method request ≠ "POST") as H4 by discriminate.
  split; [exact H1|]. split; [exact H2|]. split; [exact H3|].
  split; [exact H4|].
  destruct (@post_edit_shows_prefilled_form demo 500 3 request Masha
              demo_store (demo_post 3) H1 H2 H3 H4)
    as (form & Hresp & _ & _ & _ & Htext & _).
  exists form. rewrite Hresp. split; [reflexivity|exact Htext].
Defined.

(** X4 at work: Masha empties the text of her post 3. *)
Lemma post_edit_invalid_witness :
  let request := demo_request "POST" [] [("text", "")] (Some Masha) in
  ∃ form,
    user request = Some Masha ∧
    posts demo_store !! 3 = Some (demo_post 3) ∧
    author (demo_post 3) = Masha.1 ∧
    method request = "POST" ∧
    @is_valid demo
      (PostForm_init (or_None (POST request)) (or_None (FILES request))
         (Some (instance_of_row (3, demo_post 3))))
      demo_store = (inr (form, false), demo_store) ∧
    response_status (@post_edit demo 500 3 request demo_store).1 = 200 ∧
    posts (@post_edit demo 500 3 request demo_store).2 !! 3
      = Some (demo_post 3).
Proof.
  intros request. eexists.
  assert (user request = Some Masha) as H1 by reflexivity.
  assert (posts demo_store !! 3 = Some (demo_post 3)) as H2 by reflexivity.
  assert (author (demo_post 3) = Masha.1) as H3 by reflexivity.
  assert (method request = "POST") as H4 by reflexivity.
  split; [exact H1|]. split; [exact H2|]. split; [exact H3|].
  split; [exact H4|]. split; [vm_compute; reflexivity|].
  destruct (@post_edit_invalid demo 500 3 request Masha demo_store
              (demo_post 3) _ H1 H2 H3 H4 eq_refl)
    as (_ & Hstatus & Hkept & _).
  split; [exact Hstatus|exact Hkept].
Defined.


(** X9 at work: post 3 of the demo store and the profile of its author. *)
Lemma count_posts_consistent_witness :
  let request := demo_request "GET" [] [] None in
  0 < @PAGE demo ∧
  unique_usernames demo_store ∧
  referential_integrity demo_store ∧
  posts demo_store !! 3 = Some (demo_post 3) ∧
  users demo_store !! author (demo_post 3) = Some Masha.2 ∧
  ∃ n : Z,
    context_get (post_detail request 3 demo_store) "count_posts"
      = Some (VInt n) ∧
    context_get (@profile demo request "Masha" demo_store) "count_posts"
      = Some (VInt n) ∧
    1 ≤ n.
Proof.
  intros request.
  assert (posts demo_store !! 3 = Some (demo_post 3)) as H4 by reflexivity.
  assert (users demo_store !! author (demo_post 3) = Some Masha.2) as H5
    by reflexivity.
  split; [exact demo_page_positive|]. split; [exact demo_unique_usernames|].
  split; [exact demo_referential_integrity|]. split; [exact H4|].
  split; [exact H5|].
  destruct (@count_posts_consistent demo request request demo_store 3
              (demo_post 3) Masha.2 demo_page_positive
              demo_unique_usernames demo_referential_integrity H4 H5)
    as (n & posts_ & Hd & Hp & _ & _ & _ & Hn).
  exists n. split; [exact Hd|]. split; [exact Hp|exact Hn].
Defined.

(** X10 at work: thirteen items in two pages. *)
Lemma pages_partition_listing_witness :
  0 < 10 ∧
  Paginator.num_pages (Paginator.init (seq 0 13) 10) = inr 2 ∧
  ∃ pages : list (Paginator.Page nat),
    length pages = 2%nat ∧
    concat (Paginator.page_object_list <$> pages) = seq 0 13.
Proof.
  assert (0 < 10) as H1 by lia.
  assert (Paginator.num_pages (Paginator.init (seq 0 13) 10) = inr 2) as H2
    by reflexivity.
  split; [exact H1|]. split; [exact H2|].
  destruct (@pages_partition_listing demo nat (seq 0 13) 10 2 H1 H2)
    as (pages & Hall & Hcat).
  exists pages. split; [|exact Hcat].
  apply Forall2_length in Hall. rewrite <- Hall. reflexivity.
Defined.

(** X11 at work: the index of the demo store. *)
Lemma index_page_size_bounds_witness :
  let request := demo_request "GET" [("page", "7")] [] None in
  0 < @PAGE demo ∧
  ∃ n : Z,
    page_obj_len (@index demo request demo_store) = Some n ∧ 0 ≤ n ≤ 10.
Proof.
  intros request. split; [exact demo_page_positive|].
  destruct (@index_page_size_bounds demo request demo_store
              demo_page_positive) as (n & Hn & Hb & _).
  exists n. split; [exact Hn|exact Hb].
Defined.

(** X12 at work: the demo store holds thirteen posts of Masha in the
    first group. *)
Lemma thirteen_posts_ten_and_three_witness :
  let test := {| title := "Test"; slug := "test-slug"; description := "d" |} in
  @PAGE demo = 10 ∧
  @py_int demo "2" = Some 2 ∧
  unique_usernames demo_store ∧
  unique_slugs demo_store ∧
  users demo_store !! 1 = Some Masha.2 ∧
  groups demo_store !! 1 = Some test ∧
  size (posts demo_store) = 13%nat ∧
  (∀ k p, posts demo_store !! k = Some p →
          author p = 1 ∧ group p = Some 1) ∧
  page_obj_len (@group_posts demo (client_get None []) "test-slug" demo_store)
    = Some 10 ∧
  page_obj_len
    (@profile demo (client_get None [("page", "2")]) "Masha" demo_store)
    = Some 3.
Proof.
  intros test.
  assert (@PAGE demo = 10) as H1 by reflexivity.
  assert (@py_int demo "2" = Some 2) as H2 by reflexivity.
  assert (users demo_store !! 1 = Some Masha.2) as H5 by reflexivity.
  assert (groups demo_store !! 1 = Some test) as H6 by reflexivity.
  assert (size (posts demo_store) = 13%nat) as H7 by (vm_compute; reflexivity).
  assert (∀ k p, posts demo_store !! k = Some p →
                 author p = 1 ∧ group p = Some 1) as H8.
  { apply (bool_decide_unpack
             (map_Forall (λ _ p, author p = 1 ∧ group p = Some 1)
                (posts demo_store))).
    vm_compute. exact I. }
  split; [exact H1|]. split; [exact H2|].
  split; [exact demo_unique_usernames|]. split; [exact demo_unique_slugs|].
  split; [exact H5|]. split; [exact H6|]. split; [exact H7|].
  split; [exact H8|].
  destruct (@thirteen_posts_ten_and_three demo demo_store 1 1 Masha.2 test
              H1 H2 demo_unique_usernames demo_unique_slugs H5 H6 H7 H8)
    as (_ & _ & Hg & _ & _ & Hp).
  split; [exact Hg|exact Hp].
Defined.

(** X13 at work: the fixture of the view tests. *)
Lemma single_post_heads_every_listing_witness :
  let request := client_get (Some Masha) [] in
  let test := {| title := "Test"; slug := "test-slug"; description := "d" |} in
  0 < @PAGE demo ∧
  unique_usernames fixture_store ∧
  unique_slugs fixture_store ∧
  posts fixture_store = {[ 1 := demo_post 1 ]} ∧
  users fixture_store !! author (demo_post 1) = Some Masha.2 ∧
  group (demo_post 1) = Some 1 ∧
  groups fixture_store !! 1 = Some test ∧
  page_obj_first (@index demo request fixture_store) = Some (1, demo_post 1) ∧
  page_obj_first (@group_posts demo request "test-slug" fixture_store)
    = Some (1, demo_post 1) ∧
  page_obj_first (@profile demo request "Masha" fixture_store)
    = Some (1, demo_post 1).
Proof.
  intros request test.
  assert (posts fixture_store = {[ 1 := demo_post 1 ]}) as H4 by reflexivity.
  assert (users fixture_store !! author (demo_post 1) = Some Masha.2) as H5
    by reflexivity.
  assert (group (demo_post 1) = Some 1) as H6 by reflexivity.
  assert (groups fixture_store !! 1 = Some test) as H7 by reflexivity.
  split; [exact demo_page_positive|].
  split; [exact fixture_unique_usernames|].
  split; [exact fixture_unique_slugs|].
  split; [exact H4|]. split; [exact H5|]. split; [exact H6|].
  split; [exact H7|].
  exact (@single_post_heads_every_listing demo request fixture_store 1 1
           (demo_post 1) Masha.2 test demo_page_positive
           fixture_unique_usernames fixture_unique_slugs H4 H5 H6 H7).
Defined.

(** X14 at work: Masha rewrites her post 3 and follows the redirect. *)
Lemma edited_post_is_shown_witness :
  let request := demo_request "POST" [] [("text", "Hello")] (Some Masha) in
  let edited := {| text := "Hello"; pub_date := 500; author := 1;
                   group := None; image := None |} in
  ∃ form,
    user request = Some Masha ∧
    method request = "POST" ∧
    posts demo_store !! 3 = Some (demo_post 3) ∧
    author (demo_post 3) = Masha.1 ∧
    @is_valid demo
      (PostForm_init (or_None (POST request)) (or_None (FILES request))
         (Some (instance_of_row (3, demo_post 3))))
      demo_store = (inr (form, true), demo_store) ∧
    refers_to_existing demo_store edited ∧
    context_get
      (post_detail (client_get None []) 3
         (@post_edit demo 500 3 request demo_store).2) "post"
      = Some (VPost (3, edited)).
Proof.
  intros request edited. eexists.
  assert (user request = Some Masha) as H1 by reflexivity.
  assert (method request = "POST") as H2 by reflexivity.
  assert (posts demo_store !! 3 = Some (demo_post 3)) as H3 by reflexivity.
  assert (author (demo_post 3) = Masha.1) as H4 by reflexivity.
  assert (refers_to_existing demo_store edited) as H6.
  { split; [by eexists|exact I]. }
  split; [exact H1|]. split; [exact H2|]. split; [exact H3|].
  split; [exact H4|]. split; [vm_compute; reflexivity|].
  split; [exact H6|].
  destruct (@edited_post_is_shown demo 500 3 request (client_get None [])
              Masha demo_store (demo_post 3) _ H1 H2 H3 H4 eq_refl)
    as (_ & Hshown).
  exact (proj1 (Hshown H6)).
Defined.
